(** * AlertConfig: the alert configuration form and its HTTP client

    A shallow embedding of
      - src/services/api.js                                   (apiClient)
      - src/components/faultmanagement/mainpage/AlertConfig.js (AlertConfig)

    The component is a React function component: six pieces of local state,
    one prop that matters (selectedDatabase), a callback prop
    (refreshAlerts), two effects and a submit handler.  Its three async
    functions are embedded as programs that run until their [await], are
    parked while the request is in flight, and are resumed when the request
    settles.  The observable behaviour of a step is the list of effects it
    produces (requests sent, console output, callback invocations). *)

From stdpp Require Import base list strings.

Open Scope string_scope.
Open Scope list_scope.

(** ** JavaScript values held in the draft *)

(** The only numbers of the component are results of [parseFloat] applied to
    the text of a number input.  The floating-point value plays no role in
    the component, so a number is kept as the application it came from. *)
Inductive JsNumber : Type :=
| parseFloat (text : string).

Inductive JsValue : Type :=
| JsString (s : string)
| JsNum (x : JsNumber).

Definition is_string (v : JsValue) : bool :=
  match v with JsString _ => true | JsNum _ => false end.

Definition is_number (v : JsValue) : bool :=
  match v with JsString _ => false | JsNum _ => true end.

(** Truthiness of a string: every string but the empty one. *)
Definition truthy (s : string) : bool := bool_decide (s ≠ "").

(** ** The draft (formData) *)

Record AlertDraft : Type := mkDraft {
  alert_title : JsValue;
  alert_message : JsValue;
  field_name : JsValue;
  lower_bound : JsValue;
  higher_bound : JsValue
}.

(** The object literal of lines 9-15 and 71-77. *)
Definition emptyDraft : AlertDraft :=
  {| alert_title := JsString "";
     alert_message := JsString "";
     field_name := JsString "";
     lower_bound := JsString "";
     higher_bound := JsString "" |}.

(** The spreads [{ ...d, key: v }] of the change handlers. *)
Definition with_alert_title (v : JsValue) (d : AlertDraft) : AlertDraft :=
  mkDraft v (alert_message d) (field_name d) (lower_bound d) (higher_bound d).
Definition with_alert_message (v : JsValue) (d : AlertDraft) : AlertDraft :=
  mkDraft (alert_title d) v (field_name d) (lower_bound d) (higher_bound d).
Definition with_field_name (v : JsValue) (d : AlertDraft) : AlertDraft :=
  mkDraft (alert_title d) (alert_message d) v (lower_bound d) (higher_bound d).
Definition with_lower_bound (v : JsValue) (d : AlertDraft) : AlertDraft :=
  mkDraft (alert_title d) (alert_message d) (field_name d) v (higher_bound d).
Definition with_higher_bound (v : JsValue) (d : AlertDraft) : AlertDraft :=
  mkDraft (alert_title d) (alert_message d) (field_name d) (lower_bound d) v.

(** ** The HTTP client wrapper (services/api.js) *)

Inductive Method : Type := GET | POST.

Record AxiosConfig : Type := {
  baseURL : string;
  headers : list (string * string)
}.

(** [axios.create(config)]: an instance that keeps the configuration as the
    defaults of every request made through it. *)
Record AxiosInstance : Type := axios_create {
  defaults : AxiosConfig
}.

Definition apiClient : AxiosInstance :=
  axios_create
    {| baseURL := "http://localhost:5000";
       headers := [("Content-Type", "application/json")] |}.

(** A request as it leaves an instance: the instance it was made through,
    the method, the path given by the caller and the body of a POST. *)
Record Request : Type := {
  through : AxiosInstance;
  method : Method;
  url : string;
  body : option AlertDraft
}.

Definition get (client : AxiosInstance) (path : string) : Request :=
  {| through := client; method := GET; url := path; body := None |}.

Definition post (client : AxiosInstance) (path : string) (data : AlertDraft)
  : Request :=
  {| through := client; method := POST; url := path; body := Some data |}.

(** The address a request is made for: the instance's base URL followed by
    the path (the base URL has no trailing slash and the paths start with
    one), before the HTTP layer normalises it. *)
Definition full_url (r : Request) : string :=
  baseURL (defaults (through r)) +:+ url r.

(** Responses, typed by the contract of the three endpoints. *)
Record TablesResponse : Type := { data_tables : list string }.
Record ColumnsResponse : Type := { data_columns : list string }.
Record PostResponse : Type := { data_unused : unit }.

(** What a rejected request throws at its [await]. *)
Inductive JsError : Type :=
| AxiosError (message : string).

Inductive Outcome (A : Type) : Type :=
| Resolved (response : A)
| Rejected (err : JsError).
Arguments Resolved {A} response.
Arguments Rejected {A} err.

(** ** Component state *)

Record State : Type := mkState {
  tables : list string;
  selectedTable : string;
  columns : list string;
  formData : AlertDraft;
  error : string;
  success : string
}.

(** The initial values of the six [useState] calls (lines 6-17). *)
Definition initialState : State :=
  {| tables := [];
     selectedTable := "";
     columns := [];
     formData := emptyDraft;
     error := "";
     success := "" |}.

(** ** Operations of the component's code *)

Inductive Logged : Type :=
| LoggedString (s : string)
| LoggedTables (data : TablesResponse)
| LoggedColumns (data : ColumnsResponse).

(** [refreshAlerts] is the parent's callback, of type [() => void]: calling it
    is an effect outside the component, and it is taken to return. *)
Inductive Action : Type :=
| console_log (label : string) (arg : Logged)
| console_error (label : string) (err : JsError)
| preventDefault
| refreshAlerts
| setTables (v : list string)
| setSelectedTable (v : string)
| setColumns (v : list string)
| setFormData (update : AlertDraft → AlertDraft)
| setError (v : string)
| setSuccess (v : string).

(** What the outside observes. *)
Inductive Effect : Type :=
| ConsoleLog (label : string) (arg : Logged)
| ConsoleError (label : string) (err : JsError)
| DefaultPrevented
| AlertsRefreshed
| Sent (req : Request)
| UnhandledRejection (err : JsError).

(** An async function body.  [Await*] is an [await] placed inside a
    [try { ... } catch (error) { ... }]: the first continuation is the rest
    of the [try] block, the second one the [catch] block. *)
Inductive Async : Type :=
| Finish
| Throw (err : JsError)
| Perform (a : Action) (k : Async)
| AwaitTables (req : Request)
    (on_fulfilled : TablesResponse → Async) (on_rejected : JsError → Async)
| AwaitColumns (req : Request)
    (on_fulfilled : ColumnsResponse → Async) (on_rejected : JsError → Async)
| AwaitPost (req : Request)
    (on_fulfilled : PostResponse → Async) (on_rejected : JsError → Async).

Notation "a ;; k" := (Perform a k)
  (at level 100, k at level 200, right associativity, only parsing).

Definition perform (a : Action) (s : State) : State * list Effect :=
  match a with
  | console_log label arg => (s, [ConsoleLog label arg])
  | console_error label err => (s, [ConsoleError label err])
  | preventDefault => (s, [DefaultPrevented])
  | refreshAlerts => (s, [AlertsRefreshed])
  | setTables v =>
      (mkState v (selectedTable s) (columns s) (formData s) (error s) (success s), [])
  | setSelectedTable v =>
      (mkState (tables s) v (columns s) (formData s) (error s) (success s), [])
  | setColumns v =>
      (mkState (tables s) (selectedTable s) v (formData s) (error s) (success s), [])
  | setFormData update =>
      (mkState (tables s) (selectedTable s) (columns s) (update (formData s))
         (error s) (success s), [])
  | setError v =>
      (mkState (tables s) (selectedTable s) (columns s) (formData s) v (success s), [])
  | setSuccess v =>
      (mkState (tables s) (selectedTable s) (columns s) (formData s) (error s) v, [])
  end.

(** Run a body up to its next [await] (which sends the request), or to its
    end.  The result is the state, the effects, and what is left to run. *)
Fixpoint run_sync (p : Async) (s : State) : State * list Effect * Async :=
  match p with
  | Perform a k =>
      let '(s1, e1) := perform a s in
      let '(s2, e2, rest) := run_sync k s1 in
      (s2, e1 ++ e2, rest)
  | AwaitTables req _ _ | AwaitColumns req _ _ | AwaitPost req _ _ =>
      (s, [Sent req], p)
  | Finish | Throw _ => (s, [], p)
  end.

(** ** The component (AlertConfig.js)

    Each function takes the variables of the render it closes over. *)

(** Lines 21-32. *)
Definition fetchTables (selectedDatabase : string) : Async :=
  console_log "Fetching tables for database:" (LoggedString selectedDatabase) ;;
  AwaitTables
    (get apiClient
       ("/fault_management/tables_from_db?database=" +:+ selectedDatabase))
    (λ response,
       console_log "Tables response:" (LoggedTables response) ;;
       setTables (data_tables response) ;;
       setSelectedTable "" ;;
       Finish)
    (λ err,
       console_error "Error fetching tables:" err ;;
       setError "Failed to fetch tables" ;;
       Finish).

(** Lines 41-54. *)
Definition fetchColumns (selectedDatabase selectedTable : string) : Async :=
  if negb (truthy selectedTable) then Finish else
  console_log "Fetching columns for table:" (LoggedString selectedTable) ;;
  AwaitColumns
    (get apiClient
       ("/fault_management/columns_from_db?database=" +:+ selectedDatabase
          +:+ "&table=" +:+ selectedTable))
    (λ response,
       console_log "Columns response:" (LoggedColumns response) ;;
       setColumns (data_columns response) ;;
       setFormData (λ prev, with_field_name (JsString "") prev) ;;
       Finish)
    (λ err,
       console_error "Error fetching columns:" err ;;
       setError "Failed to fetch columns" ;;
       Finish).

(** Lines 61-82. *)
Definition handleSubmit (selectedDatabase : string) (formData : AlertDraft)
  : Async :=
  preventDefault ;;
  setError "" ;;
  setSuccess "" ;;
  AwaitPost
    (post apiClient
       ("/fault_management/add_alert?database=" +:+ selectedDatabase) formData)
    (λ _,
       setSuccess "Alert added successfully" ;;
       refreshAlerts ;;
       setFormData (λ _, emptyDraft) ;;
       Finish)
    (λ err,
       setError "Failed to add alert" ;;
       console_error "Error adding alert:" err ;;
       Finish).

(** The body of the effect of lines 20-37, dependencies [selectedDatabase]. *)
Definition effect_tables (selectedDatabase : string) : Async :=
  if truthy selectedDatabase then fetchTables selectedDatabase else Finish.

(** The body of the effect of lines 40-59, dependencies
    [selectedTable, selectedDatabase]. *)
Definition effect_columns (selectedDatabase selectedTable : string) : Async :=
  if truthy selectedTable then fetchColumns selectedDatabase selectedTable
  else Finish.

(** The [onChange] handlers of the form controls (lines 97, 116, 135, 145,
    155, 165); [value] is [e.target.value]. *)
Definition onChange_table (value : string) : Async :=
  setSelectedTable value ;; Finish.
Definition onChange_field_name (formData : AlertDraft) (value : string) : Async :=
  setFormData (λ _, with_field_name (JsString value) formData) ;; Finish.
Definition onChange_alert_title (formData : AlertDraft) (value : string) : Async :=
  setFormData (λ _, with_alert_title (JsString value) formData) ;; Finish.
Definition onChange_alert_message (formData : AlertDraft) (value : string) : Async :=
  setFormData (λ _, with_alert_message (JsString value) formData) ;; Finish.
Definition onChange_lower_bound (formData : AlertDraft) (value : string) : Async :=
  setFormData (λ _, with_lower_bound (JsNum (parseFloat value)) formData) ;;
  Finish.
Definition onChange_higher_bound (formData : AlertDraft) (value : string) : Async :=
  setFormData (λ _, with_higher_bound (JsNum (parseFloat value)) formData) ;;
  Finish.

(** ** The mounted component and its environment *)

(** The prop, the state, and the async functions parked at their [await],
    oldest first. *)
Record World : Type := mkWorld {
  selectedDatabase : string;
  state : State;
  inflight : list Async
}.

(** What is left of a function once it has run as far as it can: an [await]
    parks it, an uncaught throw rejects its promise with nobody to handle
    it. *)
Definition park (rest : Async) : list Async :=
  match rest with
  | AwaitTables _ _ _ | AwaitColumns _ _ _ | AwaitPost _ _ _ => [rest]
  | Finish | Throw _ | Perform _ _ => []
  end.

Definition rejection (rest : Async) : list Effect :=
  match rest with
  | Throw err => [UnhandledRejection err]
  | _ => []
  end.

(** Call a function: run it up to its [await] or its end. *)
Definition launch (p : Async) (w : World) : World * list Effect :=
  let '(s, effs, rest) := run_sync p (state w) in
  (mkWorld (selectedDatabase w) s (inflight w ++ park rest),
   effs ++ rejection rest).

(** After a render, React runs the effects whose dependencies differ from
    those of the previous render, in the order of their declaration.  The
    state updates of one handler are rendered together. *)
Definition run_effects (before w : World) : World * list Effect :=
  let db_changed := bool_decide (selectedDatabase before ≠ selectedDatabase w) in
  let table_changed :=
    bool_decide (selectedTable (state before) ≠ selectedTable (state w)) in
  let '(w1, e1) :=
    if db_changed then launch (effect_tables (selectedDatabase w)) w
    else (w, []) in
  let '(w2, e2) :=
    if table_changed || db_changed
    then launch (effect_columns (selectedDatabase w) (selectedTable (state w))) w1
    else (w1, []) in
  (w2, e1 ++ e2).

(** The first render: the initial state, then both effects. *)
Definition mount (db : string) : World * list Effect :=
  let w := mkWorld db initialState [] in
  let '(w1, e1) := launch (effect_tables db) w in
  let '(w2, e2) := launch (effect_columns db (selectedTable (state w))) w1 in
  (w2, e1 ++ e2).

Inductive Event : Type :=
| PropsChanged (db : string)
| TableChange (value : string)
| FieldNameChange (value : string)
| AlertTitleChange (value : string)
| AlertMessageChange (value : string)
| LowerBoundChange (value : string)
| HigherBoundChange (value : string)
| Submit
| TablesSettled (i : nat) (o : Outcome TablesResponse)
| ColumnsSettled (i : nat) (o : Outcome ColumnsResponse)
| PostSettled (i : nat) (o : Outcome PostResponse).

(** Run a handler or a resumed function, render, run the effects. *)
Definition dispatch (p : Async) (before w : World) : World * list Effect :=
  let '(w1, e1) := launch p w in
  let '(w2, e2) := run_effects before w1 in
  (w2, e1 ++ e2).

Definition settle {A : Type} (o : Outcome A)
  (on_fulfilled : A → Async) (on_rejected : JsError → Async) : Async :=
  match o with
  | Resolved response => on_fulfilled response
  | Rejected err => on_rejected err
  end.

Definition unpark (i : nat) (w : World) : World :=
  mkWorld (selectedDatabase w) (state w) (delete i (inflight w)).

(** One event.  [None]: the event cannot happen (no such request in
    flight).  A submit is taken as delivered to handleSubmit: the browser's
    own check of the [required] controls, which holds a submit back while
    one of them is empty, is outside the component's code. *)
Definition step (w : World) (ev : Event) : option (World * list Effect) :=
  match ev with
  | PropsChanged db =>
      Some (run_effects w (mkWorld db (state w) (inflight w)))
  | TableChange value =>
      Some (dispatch (onChange_table value) w w)
  | FieldNameChange value =>
      Some (dispatch (onChange_field_name (formData (state w)) value) w w)
  | AlertTitleChange value =>
      Some (dispatch (onChange_alert_title (formData (state w)) value) w w)
  | AlertMessageChange value =>
      Some (dispatch (onChange_alert_message (formData (state w)) value) w w)
  | LowerBoundChange value =>
      Some (dispatch (onChange_lower_bound (formData (state w)) value) w w)
  | HigherBoundChange value =>
      Some (dispatch (onChange_higher_bound (formData (state w)) value) w w)
  | Submit =>
      Some (dispatch (handleSubmit (selectedDatabase w) (formData (state w))) w w)
  | TablesSettled i o =>
      match inflight w !! i with
      | Some (AwaitTables _ on_fulfilled on_rejected) =>
          Some (dispatch (settle o on_fulfilled on_rejected) w (unpark i w))
      | _ => None
      end
  | ColumnsSettled i o =>
      match inflight w !! i with
      | Some (AwaitColumns _ on_fulfilled on_rejected) =>
          Some (dispatch (settle o on_fulfilled on_rejected) w (unpark i w))
      | _ => None
      end
  | PostSettled i o =>
      match inflight w !! i with
      | Some (AwaitPost _ on_fulfilled on_rejected) =>
          Some (dispatch (settle o on_fulfilled on_rejected) w (unpark i w))
      | _ => None
      end
  end.

(** A sequence of events, with the effects of all of them. *)
Fixpoint run (w : World) (evs : list Event) : option (World * list Effect) :=
  match evs with
  | [] => Some (w, [])
  | ev :: evs' =>
      match step w ev with
      | Some (w1, e1) =>
          match run w1 evs' with
          | Some (w2, e2) => Some (w2, e1 ++ e2)
          | None => None
          end
      | None => None
      end
  end.

(** The worlds the component can be in. *)
Inductive reachable : World → Prop :=
| reachable_mount (db : string) : reachable (mount db).1
| reachable_step (w : World) (ev : Event) (w' : World) (effs : list Effect) :
    reachable w → step w ev = Some (w', effs) → reachable w'.

(** ** What is rendered (lines 84-175) *)

Record View : Type := {
  danger_alert : option string;
  success_alert : option string;
  table_options : list string;
  table_value : string;
  field_options : option (list string)
}.

Definition render (w : World) : View :=
  {| danger_alert :=
       if truthy (error (state w)) then Some (error (state w)) else None;
     success_alert :=
       if truthy (success (state w)) then Some (success (state w)) else None;
     table_options := "" :: tables (state w);
     table_value := selectedTable (state w);
     field_options :=
       if truthy (selectedTable (state w))
       then Some ("" :: columns (state w)) else None |}.

(** ** Observations on effect lists *)

Definition requests (effs : list Effect) : list Request :=
  omap (λ e, match e with Sent r => Some r | _ => None end) effs.

Definition refresh_calls (effs : list Effect) : nat :=
  length (omap (λ e, match e with AlertsRefreshed => Some () | _ => None end) effs).

Definition unhandled (effs : list Effect) : list JsError :=
  omap (λ e, match e with UnhandledRejection err => Some err | _ => None end) effs.

(** The world after mounting with [db] and then the events [evs]. *)
Definition after (db : string) (evs : list Event) : World :=
  match run (mount db).1 evs with
  | Some (w, _) => w
  | None => (mount db).1
  end.

(** The three requests of the component. *)
Definition tables_request (db : string) : Request :=
  get apiClient ("/fault_management/tables_from_db?database=" +:+ db).
Definition columns_request (db table : string) : Request :=
  get apiClient
    ("/fault_management/columns_from_db?database=" +:+ db +:+ "&table=" +:+ table).
Definition alert_request (db : string) (draft : AlertDraft) : Request :=
  post apiClient ("/fault_management/add_alert?database=" +:+ db) draft.

(** The point where a function stops when it is called: its first [await],
    or its end. *)
Fixpoint suspended (p : Async) : Async :=
  match p with
  | Perform _ k => suspended k
  | _ => p
  end.

(** The functions that can be parked: the three async functions of the
    component, stopped at their one [await]. *)
Inductive parked : Async → Prop :=
| parked_fetchTables (db : string) :
    parked (suspended (fetchTables db))
| parked_fetchColumns (db table : string) :
    truthy table = true → parked (suspended (fetchColumns db table))
| parked_handleSubmit (db : string) (draft : AlertDraft) :
    parked (suspended (handleSubmit db draft)).

(** ** Closed forms

    What the effects start, the state after an event and the requests an
    event sends, written out.  They are proved equal to what [step] does in
    the second part. *)

(** The fetches a render starts, as the effects decide them. *)
Definition started (before w : World) : list Request :=
  (if bool_decide (selectedDatabase before ≠ selectedDatabase w)
      && truthy (selectedDatabase w)
   then [tables_request (selectedDatabase w)] else [])
  ++
  (if (bool_decide (selectedTable (state before) ≠ selectedTable (state w))
       || bool_decide (selectedDatabase before ≠ selectedDatabase w))
      && truthy (selectedTable (state w))
   then [columns_request (selectedDatabase w) (selectedTable (state w))]
   else []).

(** The component as a reducer: the state after an event. *)
Definition next_state (s : State) (ev : Event) : State :=
  match ev with
  | PropsChanged _ => s
  | TableChange value =>
      mkState (tables s) value (columns s) (formData s) (error s) (success s)
  | FieldNameChange value =>
      mkState (tables s) (selectedTable s) (columns s)
        (with_field_name (JsString value) (formData s)) (error s) (success s)
  | AlertTitleChange value =>
      mkState (tables s) (selectedTable s) (columns s)
        (with_alert_title (JsString value) (formData s)) (error s) (success s)
  | AlertMessageChange value =>
      mkState (tables s) (selectedTable s) (columns s)
        (with_alert_message (JsString value) (formData s)) (error s) (success s)
  | LowerBoundChange value =>
      mkState (tables s) (selectedTable s) (columns s)
        (with_lower_bound (JsNum (parseFloat value)) (formData s))
        (error s) (success s)
  | HigherBoundChange value =>
      mkState (tables s) (selectedTable s) (columns s)
        (with_higher_bound (JsNum (parseFloat value)) (formData s))
        (error s) (success s)
  | Submit =>
      mkState (tables s) (selectedTable s) (columns s) (formData s) "" ""
  | TablesSettled _ (Resolved response) =>
      mkState (data_tables response) "" (columns s) (formData s)
        (error s) (success s)
  | TablesSettled _ (Rejected _) =>
      mkState (tables s) (selectedTable s) (columns s) (formData s)
        "Failed to fetch tables" (success s)
  | ColumnsSettled _ (Resolved response) =>
      mkState (tables s) (selectedTable s) (data_columns response)
        (with_field_name (JsString "") (formData s)) (error s) (success s)
  | ColumnsSettled _ (Rejected _) =>
      mkState (tables s) (selectedTable s) (columns s) (formData s)
        "Failed to fetch columns" (success s)
  | PostSettled _ (Resolved _) =>
      mkState (tables s) (selectedTable s) (columns s) emptyDraft
        (error s) "Alert added successfully"
  | PostSettled _ (Rejected _) =>
      mkState (tables s) (selectedTable s) (columns s) (formData s)
        "Failed to add alert" (success s)
  end.

Definition requests_sent (w : World) (ev : Event) : list Request :=
  match ev with
  | PropsChanged db =>
      if bool_decide (selectedDatabase w ≠ db)
      then (if truthy db then [tables_request db] else [])
           ++ (if truthy (selectedTable (state w))
               then [columns_request db (selectedTable (state w))] else [])
      else []
  | TableChange value =>
      if bool_decide (selectedTable (state w) ≠ value) && truthy value
      then [columns_request (selectedDatabase w) value] else []
  | Submit => [alert_request (selectedDatabase w) (formData (state w))]
  | _ => []
  end.

(** ** Observations on requests and on the draft *)

(** The requests of a list that go to the endpoint [path]. *)
Definition to_endpoint (path : string) (r : Request) : bool :=
  String.prefix path (url r).

Definition is_empty_string (v : JsValue) : bool :=
  match v with
  | JsString s => bool_decide (s = "")
  | JsNum _ => false
  end.

(** The types the draft keeps: three strings, and two bounds that are each
    the empty string (never typed in, or reset) or a number. *)
Definition draft_typed (d : AlertDraft) : bool :=
  is_string (alert_title d) && is_string (alert_message d)
  && is_string (field_name d)
  && (is_empty_string (lower_bound d) || is_number (lower_bound d))
  && (is_empty_string (higher_bound d) || is_number (higher_bound d)).

(** The types of the draft in the data model of the specification: three
    strings and two numbers. *)
Definition draft_strings_and_numbers (d : AlertDraft) : bool :=
  is_string (alert_title d) && is_string (alert_message d)
  && is_string (field_name d)
  && is_number (lower_bound d) && is_number (higher_bound d).

(** How an event changes the draft. *)
Definition next_draft (d : AlertDraft) (ev : Event) : AlertDraft :=
  match ev with
  | FieldNameChange value => with_field_name (JsString value) d
  | AlertTitleChange value => with_alert_title (JsString value) d
  | AlertMessageChange value => with_alert_message (JsString value) d
  | LowerBoundChange value => with_lower_bound (JsNum (parseFloat value)) d
  | HigherBoundChange value => with_higher_bound (JsNum (parseFloat value)) d
  | ColumnsSettled _ (Resolved _) => with_field_name (JsString "") d
  | PostSettled _ (Resolved _) => emptyDraft
  | _ => d
  end.

(** ** Example sessions *)

(** A session used in the examples below: the component is mounted on the
    database "sensors", the table list arrives, the user picks the table
    "readings", its column list arrives, and the user picks the field
    "temp".  Nothing is in flight at its end. *)
Definition sensors_session : list Event :=
  [ TablesSettled 0 (Resolved {| data_tables := ["readings"; "events"] |});
    TableChange "readings";
    ColumnsSettled 0 (Resolved {| data_columns := ["temp"; "humidity"] |});
    FieldNameChange "temp" ].

(** The same session, continued until the form is filled in. *)
Definition filled_session : list Event :=
  sensors_session
    ++ [ AlertTitleChange "hot"; AlertMessageChange "too hot";
         LowerBoundChange "10.5"; HigherBoundChange "40" ].

Definition filled_draft : AlertDraft :=
  {| alert_title := JsString "hot";
     alert_message := JsString "too hot";
     field_name := JsString "temp";
     lower_bound := JsNum (parseFloat "10.5");
     higher_bound := JsNum (parseFloat "40") |}.

(** ** Counting over sessions *)

(** The messages the component can show (lines 30, 52, 68, 79). *)
Definition fixed_errors : list string :=
  [""; "Failed to fetch tables"; "Failed to fetch columns"; "Failed to add alert"].

Definition fixed_successes : list string :=
  [""; "Alert added successfully"].

(** The submits of a session, and its POSTs that succeeded. *)
Definition submits (evs : list Event) : nat :=
  length (omap (λ ev, match ev with Submit => Some () | _ => None end) evs).

Definition posts_succeeded (evs : list Event) : nat :=
  length (omap (λ ev, match ev with
                      | PostSettled _ (Resolved _) => Some ()
                      | _ => None
                      end) evs).

(** The requests of an effect list that go to the alert-creation endpoint. *)
Definition posts_sent (effs : list Effect) : nat :=
  length (List.filter (to_endpoint "/fault_management/add_alert") (requests effs)).

(** The field of the draft a form control writes. *)
Inductive Field : Type :=
| F_alert_title | F_alert_message | F_field_name | F_lower_bound | F_higher_bound.

Definition edited_field (ev : Event) : option Field :=
  match ev with
  | FieldNameChange _ => Some F_field_name
  | AlertTitleChange _ => Some F_alert_title
  | AlertMessageChange _ => Some F_alert_message
  | LowerBoundChange _ => Some F_lower_bound
  | HigherBoundChange _ => Some F_higher_bound
  | _ => None
  end.

(** Two more sessions.  In the first the database changes from "sensors" to
    "archive" before the first table fetch has settled, and the fetch for
    "archive" settles first.  In the second the user picks the table
    "readings" and then "events" before any column fetch has settled; the
    fetch for "events" settles first and the user picks the field "kind". *)
Definition overtaken_tables_session : list Event :=
  [ PropsChanged "archive";
    TablesSettled 1 (Resolved {| data_tables := ["log"] |}) ].

Definition overtaken_columns_session : list Event :=
  [ TablesSettled 0 (Resolved {| data_tables := ["readings"; "events"] |});
    TableChange "readings";
    TableChange "events";
    ColumnsSettled 1 (Resolved {| data_columns := ["kind"; "at"] |});
    FieldNameChange "kind" ].

(** The filled session, submitted with success, and the form filled in
    again: the success message is on the screen and the draft is complete. *)
Definition refilled_session : list Event :=
  filled_session
    ++ [ Submit; PostSettled 0 (Resolved {| data_unused := () |});
         FieldNameChange "temp";
         AlertTitleChange "cold"; AlertMessageChange "too cold";
         LowerBoundChange "-5"; HigherBoundChange "3" ].

(** * Properties *)

(** ** Tactics *)

(** The world a step ends in, from the equation of the step. *)
Ltac step_world H w' :=
  injection H as H; apply (f_equal fst) in H; cbn [fst] in H; subst w'.

(** The effects of a step, from the equation of the step. *)
Ltac step_effects H effs :=
  injection H as H; apply (f_equal snd) in H; cbn [snd] in H; subst effs.

(** Run the synchronous part of a handler. *)
Ltac run_handler :=
  unfold launch;
  cbn [settle run_sync perform park rejection fst snd app
       state selectedDatabase inflight unpark
       tables selectedTable columns formData error success];
  rewrite ?app_nil_r.

(** A step of a concrete world, by evaluation. *)
Ltac computed_step E :=
  match goal with
  | |- ?A ∧ _ => assert (E : A) by (vm_compute; reflexivity)
  end.

(** ** Running a function *)

Lemma run_sync_rest (p : Async) (s : State) : (run_sync p s).2 = suspended p.
Proof.
  revert s. induction p as [| |a k IH| | |]; intros s; try reflexivity.
  cbn [run_sync suspended]. destruct (perform a s) as [s1 e1].
  specialize (IH s1). destruct (run_sync k s1) as [[s2 e2] rest]. exact IH.
Qed.

Lemma launch_selectedDatabase (p : Async) (w : World) :
  selectedDatabase (launch p w).1 = selectedDatabase w.
Proof. unfold launch. by destruct (run_sync p (state w)) as [[? ?] ?]. Qed.

Lemma launch_inflight (p : Async) (w : World) :
  inflight (launch p w).1 = inflight w ++ park (suspended p).
Proof.
  unfold launch. rewrite <- (run_sync_rest p (state w)).
  by destruct (run_sync p (state w)) as [[? ?] ?].
Qed.

Lemma launch_state (p : Async) (w : World) :
  state (launch p w).1 = (run_sync p (state w)).1.1.
Proof. unfold launch. by destruct (run_sync p (state w)) as [[? ?] ?]. Qed.

Lemma truthy_empty : truthy "" = false.
Proof. reflexivity. Qed.

Lemma truthy_true (s : string) : truthy s = true ↔ s ≠ "".
Proof. unfold truthy. by rewrite bool_decide_eq_true. Qed.

(** ** The effects *)

(** Neither effect sets state before its [await], so one pass over the
    effects after a render is all there is: no effect causes a render. *)
Lemma run_effects_state (before w : World) :
  state (run_effects before w).1 = state w.
Proof.
  unfold run_effects, effect_tables, effect_columns, fetchColumns.
  destruct w as [db s fl]; cbn [selectedDatabase state inflight].
  repeat case_bool_decide; cbn [orb]; destruct (truthy db);
    destruct (truthy (selectedTable s)); reflexivity.
Qed.

Lemma run_effects_selectedDatabase (before w : World) :
  selectedDatabase (run_effects before w).1 = selectedDatabase w.
Proof.
  unfold run_effects, effect_tables, effect_columns, fetchColumns.
  destruct w as [db s fl]; cbn [selectedDatabase state inflight].
  repeat case_bool_decide; cbn [orb]; destruct (truthy db);
    destruct (truthy (selectedTable s)); reflexivity.
Qed.

Lemma run_effects_requests (before w : World) :
  requests (run_effects before w).2 = started before w.
Proof.
  unfold run_effects, started, effect_tables, effect_columns, fetchColumns.
  destruct w as [db s fl]; cbn [selectedDatabase state inflight].
  repeat case_bool_decide; cbn [orb andb]; destruct (truthy db);
    destruct (truthy (selectedTable s)); reflexivity.
Qed.

Lemma run_effects_inflight (before w : World) :
  inflight (run_effects before w).1 =
  inflight w
  ++ (if bool_decide (selectedDatabase before ≠ selectedDatabase w)
         && truthy (selectedDatabase w)
      then [suspended (fetchTables (selectedDatabase w))] else [])
  ++ (if (bool_decide (selectedTable (state before) ≠ selectedTable (state w))
          || bool_decide (selectedDatabase before ≠ selectedDatabase w))
         && truthy (selectedTable (state w))
      then [suspended (fetchColumns (selectedDatabase w) (selectedTable (state w)))]
      else []).
Proof.
  unfold run_effects, effect_tables, effect_columns, fetchColumns.
  destruct w as [db s fl]; cbn [selectedDatabase state inflight].
  repeat case_bool_decide; cbn [orb andb]; destruct (truthy db);
    destruct (truthy (selectedTable s)); cbn;
    rewrite ?app_nil_r, <- ?app_assoc; reflexivity.
Qed.

Lemma run_effects_quiet (before w : World) :
  refresh_calls (run_effects before w).2 = 0 ∧ unhandled (run_effects before w).2 = [].
Proof.
  unfold run_effects, effect_tables, effect_columns, fetchColumns.
  destruct w as [db s fl]; cbn [selectedDatabase state inflight].
  repeat case_bool_decide; cbn [orb andb]; destruct (truthy db);
    destruct (truthy (selectedTable s)); split; reflexivity.
Qed.

(** ** Dispatching a handler *)

Lemma dispatch_world (p : Async) (before w : World) :
  (dispatch p before w).1 = (run_effects before (launch p w).1).1.
Proof.
  unfold dispatch. destruct (launch p w) as [w1 e1]. cbn [fst snd].
  by destruct (run_effects before w1) as [w2 e2].
Qed.

Lemma dispatch_effects (p : Async) (before w : World) :
  (dispatch p before w).2 =
  (launch p w).2 ++ (run_effects before (launch p w).1).2.
Proof.
  unfold dispatch. destruct (launch p w) as [w1 e1]. cbn [fst snd].
  by destruct (run_effects before w1) as [w2 e2].
Qed.

Lemma dispatch_state (p : Async) (before w : World) :
  state (dispatch p before w).1 = (run_sync p (state w)).1.1.
Proof. by rewrite dispatch_world, run_effects_state, launch_state. Qed.

Lemma dispatch_selectedDatabase (p : Async) (before w : World) :
  selectedDatabase (dispatch p before w).1 = selectedDatabase w.
Proof.
  by rewrite dispatch_world, run_effects_selectedDatabase, launch_selectedDatabase.
Qed.

(** ** Only the component's own functions are ever in flight *)

Lemma run_effects_parked (before w : World) :
  Forall parked (inflight w) → Forall parked (inflight (run_effects before w).1).
Proof.
  intros Hw. rewrite run_effects_inflight.
  repeat apply Forall_app_2; [done | |].
  - destruct (_ && _); [| constructor].
    repeat constructor.
  - destruct (_ && truthy _) eqn:E; [| constructor].
    apply andb_true_iff in E as [_ E]. repeat constructor; done.
Qed.

Lemma dispatch_parked (p : Async) (before w : World) :
  Forall parked (inflight w) → Forall parked (park (suspended p)) →
  Forall parked (inflight (dispatch p before w).1).
Proof.
  intros Hw Hp. rewrite dispatch_world. apply run_effects_parked.
  rewrite launch_inflight. by apply Forall_app_2.
Qed.

Lemma unpark_parked (i : nat) (w : World) :
  Forall parked (inflight w) → Forall parked (inflight (unpark i w)).
Proof.
  intros Hw. cbn [unpark inflight]. by apply Forall_delete.
Qed.

Lemma parked_cases (p : Async) :
  parked p →
  (∃ db, p = suspended (fetchTables db))
  ∨ (∃ db t, truthy t = true ∧
       p = AwaitColumns (columns_request db t)
             (λ response,
                console_log "Columns response:" (LoggedColumns response) ;;
                setColumns (data_columns response) ;;
                setFormData (λ prev, with_field_name (JsString "") prev) ;;
                Finish)
             (λ err,
                console_error "Error fetching columns:" err ;;
                setError "Failed to fetch columns" ;;
                Finish))
  ∨ (∃ db d, p = suspended (handleSubmit db d)).
Proof.
  destruct 1 as [db|db t Ht|db d].
  - left. by exists db.
  - right; left. exists db, t. split; [done |].
    unfold fetchColumns. by rewrite Ht.
  - right; right. by exists db, d.
Qed.

Lemma parked_tables (req : Request) (k : TablesResponse → Async) (h : JsError → Async) :
  parked (AwaitTables req k h) →
  ∃ db, AwaitTables req k h = suspended (fetchTables db).
Proof.
  intros H. destruct (parked_cases _ H) as [(db & E)|[(db & t & _ & E)|(db & d & E)]];
    [by exists db | discriminate | discriminate].
Qed.

Lemma parked_columns (req : Request) (k : ColumnsResponse → Async) (h : JsError → Async) :
  parked (AwaitColumns req k h) →
  ∃ db t, truthy t = true ∧ AwaitColumns req k h = suspended (fetchColumns db t).
Proof.
  intros H. destruct (parked_cases _ H) as [(db & E)|[(db & t & Ht & E)|(db & d & E)]];
    [discriminate | | discriminate].
  exists db, t. split; [done |]. unfold fetchColumns. by rewrite Ht.
Qed.

Lemma parked_post (req : Request) (k : PostResponse → Async) (h : JsError → Async) :
  parked (AwaitPost req k h) →
  ∃ db d, AwaitPost req k h = suspended (handleSubmit db d).
Proof.
  intros H. destruct (parked_cases _ H) as [(db & E)|[(db & t & _ & E)|(db & d & E)]];
    [discriminate | discriminate | by exists db, d].
Qed.

Lemma mount_parked (db : string) : Forall parked (inflight (mount db).1).
Proof.
  unfold mount, effect_tables. cbn.
  destruct (truthy db); cbn; repeat constructor.
Qed.

Lemma step_parked (w : World) (ev : Event) (w' : World) (effs : list Effect) :
  Forall parked (inflight w) → step w ev = Some (w', effs) →
  Forall parked (inflight w').
Proof.
  intros Hw Hstep.
  assert (Hlook : ∀ i p, inflight w !! i = Some p → parked p).
  { intros i p Hp. rewrite Forall_forall in Hw. apply Hw.
    by apply list_elem_of_lookup_2 in Hp. }
  destruct ev as [db|v|v|v|v|v|v| |i o|i o|i o]; cbn [step] in Hstep.
  - step_world Hstep w'. by apply run_effects_parked.
  - step_world Hstep w'. apply dispatch_parked; [done | constructor].
  - step_world Hstep w'. apply dispatch_parked; [done | constructor].
  - step_world Hstep w'. apply dispatch_parked; [done | constructor].
  - step_world Hstep w'. apply dispatch_parked; [done | constructor].
  - step_world Hstep w'. apply dispatch_parked; [done | constructor].
  - step_world Hstep w'. apply dispatch_parked; [done | constructor].
  - (* handleSubmit is parked at its POST *)
    step_world Hstep w'. apply dispatch_parked; [done |].
    constructor; [apply parked_handleSubmit | constructor].
  - destruct (inflight w !! i) as [[| | |req k h| |]|] eqn:E; try discriminate.
    step_world Hstep w'.
    destruct (parked_tables req k h (Hlook _ _ E)) as [db Hdb].
    injection Hdb as _ -> ->.
    apply dispatch_parked; [by apply unpark_parked |].
    destruct o; constructor.
  - destruct (inflight w !! i) as [[| | | |req k h|]|] eqn:E; try discriminate.
    step_world Hstep w'.
    destruct (parked_columns req k h (Hlook _ _ E)) as (db & t & Ht & Hdb).
    unfold fetchColumns in Hdb. rewrite Ht in Hdb. injection Hdb as _ -> ->.
    apply dispatch_parked; [by apply unpark_parked |].
    destruct o; constructor.
  - destruct (inflight w !! i) as [[| | | | |req k h]|] eqn:E; try discriminate.
    step_world Hstep w'.
    destruct (parked_post req k h (Hlook _ _ E)) as (db & d & Hdb).
    injection Hdb as _ -> ->.
    apply dispatch_parked; [by apply unpark_parked |].
    destruct o; constructor.
Qed.

Lemma reachable_parked (w : World) : reachable w → Forall parked (inflight w).
Proof.
  induction 1 as [db|w ev w' effs _ IH Hstep].
  - apply mount_parked.
  - by eapply step_parked.
Qed.

Lemma run_reachable (evs : list Event) (w w' : World) (effs : list Effect) :
  reachable w → run w evs = Some (w', effs) → reachable w'.
Proof.
  revert w effs. induction evs as [|ev evs IH]; intros w effs Hw Hrun; cbn in Hrun.
  - by injection Hrun as <- _.
  - destruct (step w ev) as [[w1 e1]|] eqn:E1; [| discriminate].
    destruct (run w1 evs) as [[w2 e2]|] eqn:E2; [| discriminate].
    injection Hrun as <- _.
    eapply IH; [| exact E2]. by eapply reachable_step.
Qed.

Lemma after_reachable (db : string) (evs : list Event) : reachable (after db evs).
Proof.
  unfold after. destruct (run (mount db).1 evs) as [[w e]|] eqn:E.
  - eapply run_reachable; [| exact E]. constructor.
  - constructor.
Qed.

(** ** Steps that start no fetch *)

Lemma run_effects_no_fetch (before w : World) :
  selectedDatabase before = selectedDatabase w →
  selectedTable (state w) = selectedTable (state before)
  ∨ selectedTable (state w) = "" →
  run_effects before w = (w, []).
Proof.
  intros Hdb Ht. unfold run_effects.
  rewrite (bool_decide_eq_false_2 (selectedDatabase before ≠ selectedDatabase w))
    by (by intros ?).
  case_bool_decide as Hne; cbn [orb]; [| done].
  destruct Ht as [Ht|Ht]; [by rewrite Ht in Hne |].
  rewrite Ht. destruct w as [db s fl].
  unfold effect_columns, launch. rewrite truthy_empty. cbn.
  by rewrite app_nil_r.
Qed.

Lemma dispatch_no_fetch (p : Async) (before w : World) :
  selectedDatabase before = selectedDatabase w →
  selectedTable (run_sync p (state w)).1.1 = selectedTable (state before)
  ∨ selectedTable (run_sync p (state w)).1.1 = "" →
  dispatch p before w = launch p w.
Proof.
  intros Hdb Ht. unfold dispatch.
  pose proof (launch_selectedDatabase p w) as H1.
  pose proof (launch_state p w) as H2.
  destruct (launch p w) as [w1 e1]. cbn [fst] in H1, H2.
  rewrite run_effects_no_fetch; [by rewrite app_nil_r | congruence |].
  by rewrite H2.
Qed.

(** ** What each settlement does *)

Lemma inflight_parked (w : World) (i : nat) (p : Async) :
  reachable w → inflight w !! i = Some p → parked p.
Proof.
  intros Hw E. apply reachable_parked in Hw. rewrite Forall_forall in Hw.
  apply Hw. by apply list_elem_of_lookup_2 in E.
Qed.

Lemma step_tables_settled (w : World) (i : nat) (o : Outcome TablesResponse)
    (w' : World) (effs : list Effect) :
  reachable w → step w (TablesSettled i o) = Some (w', effs) →
  match o with
  | Resolved response =>
      w' = mkWorld (selectedDatabase w)
             (mkState (data_tables response) "" (columns (state w))
                (formData (state w)) (error (state w)) (success (state w)))
             (delete i (inflight w))
      ∧ effs = [ConsoleLog "Tables response:" (LoggedTables response)]
  | Rejected err =>
      w' = mkWorld (selectedDatabase w)
             (mkState (tables (state w)) (selectedTable (state w))
                (columns (state w)) (formData (state w))
                "Failed to fetch tables" (success (state w)))
             (delete i (inflight w))
      ∧ effs = [ConsoleError "Error fetching tables:" err]
  end.
Proof.
  intros Hw Hstep. cbn [step] in Hstep.
  destruct (inflight w !! i) as [[| | |req k h| |]|] eqn:E; try discriminate.
  destruct (parked_tables req k h (inflight_parked _ _ _ Hw E)) as [db Hdb].
  injection Hdb as _ -> ->. injection Hstep as Hstep.
  rewrite dispatch_no_fetch in Hstep; [| done | destruct o; cbn; auto].
  revert Hstep. destruct o; run_handler; intros [= <- <-]; done.
Qed.

Lemma step_columns_settled (w : World) (i : nat) (o : Outcome ColumnsResponse)
    (w' : World) (effs : list Effect) :
  reachable w → step w (ColumnsSettled i o) = Some (w', effs) →
  match o with
  | Resolved response =>
      w' = mkWorld (selectedDatabase w)
             (mkState (tables (state w)) (selectedTable (state w))
                (data_columns response)
                (with_field_name (JsString "") (formData (state w)))
                (error (state w)) (success (state w)))
             (delete i (inflight w))
      ∧ effs = [ConsoleLog "Columns response:" (LoggedColumns response)]
  | Rejected err =>
      w' = mkWorld (selectedDatabase w)
             (mkState (tables (state w)) (selectedTable (state w))
                (columns (state w)) (formData (state w))
                "Failed to fetch columns" (success (state w)))
             (delete i (inflight w))
      ∧ effs = [ConsoleError "Error fetching columns:" err]
  end.
Proof.
  intros Hw Hstep. cbn [step] in Hstep.
  destruct (inflight w !! i) as [[| | | |req k h|]|] eqn:E; try discriminate.
  destruct (parked_columns req k h (inflight_parked _ _ _ Hw E))
    as (db & t & Ht & Hdb).
  unfold fetchColumns in Hdb. rewrite Ht in Hdb.
  injection Hdb as _ -> ->. injection Hstep as Hstep.
  rewrite dispatch_no_fetch in Hstep; [| done | destruct o; cbn; auto].
  revert Hstep. destruct o; run_handler; intros [= <- <-]; done.
Qed.

Lemma step_post_settled (w : World) (i : nat) (o : Outcome PostResponse)
    (w' : World) (effs : list Effect) :
  reachable w → step w (PostSettled i o) = Some (w', effs) →
  match o with
  | Resolved response =>
      w' = mkWorld (selectedDatabase w)
             (mkState (tables (state w)) (selectedTable (state w))
                (columns (state w)) emptyDraft
                (error (state w)) "Alert added successfully")
             (delete i (inflight w))
      ∧ effs = [AlertsRefreshed]
  | Rejected err =>
      w' = mkWorld (selectedDatabase w)
             (mkState (tables (state w)) (selectedTable (state w))
                (columns (state w)) (formData (state w))
                "Failed to add alert" (success (state w)))
             (delete i (inflight w))
      ∧ effs = [ConsoleError "Error adding alert:" err]
  end.
Proof.
  intros Hw Hstep. cbn [step] in Hstep.
  destruct (inflight w !! i) as [[| | | | |req k h]|] eqn:E; try discriminate.
  destruct (parked_post req k h (inflight_parked _ _ _ Hw E)) as (db & d & Hdb).
  injection Hdb as _ -> ->. injection Hstep as Hstep.
  rewrite dispatch_no_fetch in Hstep; [| done | destruct o; cbn; auto].
  revert Hstep. destruct o; run_handler; intros [= <- <-]; done.
Qed.

Lemma state_eta (s : State) :
  mkState (tables s) (selectedTable s) (columns s) (formData s) (error s)
    (success s) = s.
Proof. by destruct s. Qed.

Lemma step_next_state (w : World) (ev : Event) (w' : World) (effs : list Effect) :
  reachable w → step w ev = Some (w', effs) →
  state w' = next_state (state w) ev.
Proof.
  intros Hw Hstep.
  destruct ev as [db|v|v|v|v|v|v| |i o|i o|i o].
  1: { cbn [step] in Hstep. step_world Hstep w'. by rewrite run_effects_state. }
  1-7: cbn [step] in Hstep; step_world Hstep w'; by rewrite dispatch_state.
  - apply step_tables_settled in Hstep; [| done]. by destruct o, Hstep as [-> _].
  - apply step_columns_settled in Hstep; [| done]. by destruct o, Hstep as [-> _].
  - apply step_post_settled in Hstep; [| done]. by destruct o, Hstep as [-> _].
Qed.

Lemma step_selectedDatabase (w : World) (ev : Event) (w' : World)
    (effs : list Effect) :
  reachable w → step w ev = Some (w', effs) →
  selectedDatabase w' =
  match ev with PropsChanged db => db | _ => selectedDatabase w end.
Proof.
  intros Hw Hstep.
  destruct ev as [db|v|v|v|v|v|v| |i o|i o|i o].
  1: { cbn [step] in Hstep. step_world Hstep w'.
       by rewrite run_effects_selectedDatabase. }
  1-7: cbn [step] in Hstep; step_world Hstep w';
       by rewrite dispatch_selectedDatabase.
  - apply step_tables_settled in Hstep; [| done]. by destruct o, Hstep as [-> _].
  - apply step_columns_settled in Hstep; [| done]. by destruct o, Hstep as [-> _].
  - apply step_post_settled in Hstep; [| done]. by destruct o, Hstep as [-> _].
Qed.

Lemma launch_requests (p : Async) (w : World) :
  requests (launch p w).2 = requests (run_sync p (state w)).1.2.
Proof.
  unfold launch. destruct (run_sync p (state w)) as [[s e] rest].
  cbn [fst snd]. unfold requests. rewrite omap_app.
  destruct rest; cbn; by rewrite app_nil_r.
Qed.

Lemma dispatch_requests (p : Async) (before w : World) :
  requests (dispatch p before w).2 =
  requests (run_sync p (state w)).1.2 ++ started before (launch p w).1.
Proof.
  rewrite dispatch_effects. unfold requests at 1. rewrite omap_app.
  fold (requests (launch p w).2).
  fold (requests (run_effects before (launch p w).1).2).
  by rewrite launch_requests, run_effects_requests.
Qed.

Lemma edit_requests (p : Async) (w : World) :
  selectedTable (run_sync p (state w)).1.1 = selectedTable (state w) →
  requests (dispatch p w w).2 = requests (run_sync p (state w)).1.2.
Proof.
  intros Ht. rewrite dispatch_no_fetch by auto. apply launch_requests.
Qed.

Lemma step_requests (w : World) (ev : Event) (w' : World) (effs : list Effect) :
  reachable w → step w ev = Some (w', effs) →
  requests effs = requests_sent w ev.
Proof.
  intros Hw Hstep.
  destruct ev as [db|v|v|v|v|v|v| |i o|i o|i o].
  - cbn [step] in Hstep. step_effects Hstep effs.
    rewrite run_effects_requests. unfold started, requests_sent.
    cbn [selectedDatabase state].
    case_bool_decide; cbn [andb orb]; [| by rewrite bool_decide_eq_false_2
      by (by intros ?)].
    destruct (bool_decide _); reflexivity.
  - cbn [step] in Hstep. step_effects Hstep effs.
    rewrite dispatch_requests. unfold started, requests_sent.
    rewrite launch_selectedDatabase, launch_state.
    rewrite (bool_decide_eq_false_2 (selectedDatabase w ≠ selectedDatabase w))
      by (by intros ?).
    cbn. by rewrite orb_false_r.
  - cbn [step] in Hstep. step_effects Hstep effs. by rewrite edit_requests.
  - cbn [step] in Hstep. step_effects Hstep effs. by rewrite edit_requests.
  - cbn [step] in Hstep. step_effects Hstep effs. by rewrite edit_requests.
  - cbn [step] in Hstep. step_effects Hstep effs. by rewrite edit_requests.
  - cbn [step] in Hstep. step_effects Hstep effs. by rewrite edit_requests.
  - (* Submit: the POST, and no effect runs *)
    cbn [step] in Hstep. step_effects Hstep effs. by rewrite edit_requests.
  - apply step_tables_settled in Hstep; [| done]. by destruct o, Hstep as [_ ->].
  - apply step_columns_settled in Hstep; [| done]. by destruct o, Hstep as [_ ->].
  - apply step_post_settled in Hstep; [| done]. by destruct o, Hstep as [_ ->].
Qed.

Lemma dispatch_quiet (p : Async) (before w : World) :
  refresh_calls (dispatch p before w).2 = refresh_calls (launch p w).2
  ∧ unhandled (dispatch p before w).2 = unhandled (launch p w).2.
Proof.
  rewrite dispatch_effects. unfold refresh_calls, unhandled.
  rewrite !omap_app, length_app.
  destruct (run_effects_quiet before (launch p w).1) as [H1 H2].
  unfold refresh_calls, unhandled in H1, H2. rewrite H1, H2.
  by rewrite Nat.add_0_r, app_nil_r.
Qed.

(** No function of the component lets an exception escape: every [await]
    sits in a [try] whose [catch] does not throw. *)
Lemma step_unhandled (w : World) (ev : Event) (w' : World) (effs : list Effect) :
  reachable w → step w ev = Some (w', effs) → unhandled effs = [].
Proof.
  intros Hw Hstep.
  destruct ev as [db|v|v|v|v|v|v| |i o|i o|i o].
  1: { cbn [step] in Hstep. step_effects Hstep effs. apply run_effects_quiet. }
  1-7: cbn [step] in Hstep; step_effects Hstep effs;
       by rewrite (proj2 (dispatch_quiet _ _ _)).
  - apply step_tables_settled in Hstep; [| done]. by destruct o, Hstep as [_ ->].
  - apply step_columns_settled in Hstep; [| done]. by destruct o, Hstep as [_ ->].
  - apply step_post_settled in Hstep; [| done]. by destruct o, Hstep as [_ ->].
Qed.

Lemma step_refresh_calls (w : World) (ev : Event) (w' : World)
    (effs : list Effect) :
  reachable w → step w ev = Some (w', effs) →
  refresh_calls effs =
  match ev with PostSettled _ (Resolved _) => 1 | _ => 0 end.
Proof.
  intros Hw Hstep.
  destruct ev as [db|v|v|v|v|v|v| |i o|i o|i o].
  1: { cbn [step] in Hstep. step_effects Hstep effs. apply run_effects_quiet. }
  1-7: cbn [step] in Hstep; step_effects Hstep effs;
       by rewrite (proj1 (dispatch_quiet _ _ _)).
  - apply step_tables_settled in Hstep; [| done]. by destruct o, Hstep as [_ ->].
  - apply step_columns_settled in Hstep; [| done]. by destruct o, Hstep as [_ ->].
  - apply step_post_settled in Hstep; [| done]. by destruct o, Hstep as [_ ->].
Qed.

(** ** Submitting *)

Lemma step_submit (w : World) :
  step w Submit =
  Some (mkWorld (selectedDatabase w)
          (mkState (tables (state w)) (selectedTable (state w))
             (columns (state w)) (formData (state w)) "" "")
          (inflight w
             ++ [suspended (handleSubmit (selectedDatabase w) (formData (state w)))]),
        [DefaultPrevented;
         Sent (alert_request (selectedDatabase w) (formData (state w)))]).
Proof. cbn [step]. by rewrite dispatch_no_fetch by auto. Qed.

Lemma render_error (w : World) (msg : string) :
  error (state w) = msg → msg ≠ "" → danger_alert (render w) = Some msg.
Proof.
  intros H Hne. cbn [render danger_alert]. rewrite H.
  by rewrite (proj2 (truthy_true _) Hne).
Qed.

Lemma render_success (w : World) (msg : string) :
  success (state w) = msg → msg ≠ "" → success_alert (render w) = Some msg.
Proof.
  intros H Hne. cbn [render success_alert]. rewrite H.
  by rewrite (proj2 (truthy_true _) Hne).
Qed.

(** C1.  A submit prevents the default action of the form, clears the error
    and the success message and sends exactly one request: a POST through
    apiClient to /fault_management/add_alert?database={selectedDatabase} with
    the current draft as its body.  When that POST resolves, the success
    message is set and shown, refreshAlerts is called exactly once and the
    draft is the empty draft (every field the empty string); when it
    rejects, the error 'Failed to add alert' is set and shown. *)
Theorem handleSubmit_posts_draft_then_resets (w : World) :
  reachable w →
  (∃ w1 : World,
     step w Submit =
       Some (w1, [DefaultPrevented;
                  Sent {| through := apiClient; method := POST;
                          url := "/fault_management/add_alert?database="
                                   +:+ selectedDatabase w;
                          body := Some (formData (state w)) |}])
     ∧ error (state w1) = "" ∧ success (state w1) = ""
     ∧ danger_alert (render w1) = None ∧ success_alert (render w1) = None
     ∧ inflight w1 !! length (inflight w) =
         Some (suspended (handleSubmit (selectedDatabase w) (formData (state w)))))
  ∧ (∀ (i : nat) (o : Outcome PostResponse) (w' : World) (effs : list Effect),
       step w (PostSettled i o) = Some (w', effs) →
       match o with
       | Resolved _ =>
           success (state w') = "Alert added successfully"
           ∧ success_alert (render w') = Some "Alert added successfully"
           ∧ refresh_calls effs = 1
           ∧ formData (state w') =
               mkDraft (JsString "") (JsString "") (JsString "") (JsString "")
                 (JsString "")
       | Rejected _ =>
           error (state w') = "Failed to add alert"
           ∧ danger_alert (render w') = Some "Failed to add alert"
       end).
Proof.
  intros Hw. split.
  - eexists. split; [apply step_submit |].
    cbn [state error success inflight render danger_alert success_alert].
    rewrite truthy_empty. repeat split.
    by rewrite lookup_app_r, Nat.sub_diag.
  - intros i o w' effs Hstep.
    apply step_post_settled in Hstep; [| done].
    destruct o as [r|err], Hstep as [-> ->]; repeat split.
Qed.

Lemma handleSubmit_posts_draft_then_resets_witness :
  reachable (after "sensors" (filled_session ++ [Submit]))
  ∧ ∃ (w' : World) (effs : list Effect),
      step (after "sensors" (filled_session ++ [Submit]))
        (PostSettled 0 (Resolved {| data_unused := () |})) = Some (w', effs)
      ∧ refresh_calls effs = 1
      ∧ formData (state w') = emptyDraft.
Proof.
  split; [apply after_reachable |].
  destruct (handleSubmit_posts_draft_then_resets
              (after "sensors" (filled_session ++ [Submit]))
              (after_reachable _ _)) as [_ H].
  eexists _, _. computed_step E. split; [exact E |].
  destruct (H 0 (Resolved {| data_unused := () |}) _ _ E) as (_ & _ & H3 & H4).
  exact (conj H3 H4).
Defined.

(** C9, as the code has it.  A submit whose POST fails leaves the draft as
    it was and never calls refreshAlerts.  Of the state, the submit writes
    the two messages and nothing else (both are cleared, so a success message
    shown before is gone), and the rejection writes the error message and
    nothing else.  A submit immediately followed by the rejection of its
    POST therefore ends with the tables, the selection, the columns and the
    draft it started with, the error 'Failed to add alert' and no success
    message. *)
Theorem failed_submit_keeps_draft (w : World) :
  reachable w →
  (∃ (w1 : World) (e1 : list Effect),
     step w Submit = Some (w1, e1)
     ∧ state w1 =
         mkState (tables (state w)) (selectedTable (state w))
           (columns (state w)) (formData (state w)) "" ""
     ∧ refresh_calls e1 = 0)
  ∧ (∀ (i : nat) (err : JsError) (w' : World) (effs : list Effect),
       step w (PostSettled i (Rejected err)) = Some (w', effs) →
       state w' =
         mkState (tables (state w)) (selectedTable (state w))
           (columns (state w)) (formData (state w))
           "Failed to add alert" (success (state w))
       ∧ refresh_calls effs = 0)
  ∧ (∀ err : JsError,
       ∃ (w2 : World) (effs : list Effect),
         run w [Submit; PostSettled (length (inflight w)) (Rejected err)]
           = Some (w2, effs)
         ∧ state w2 =
             mkState (tables (state w)) (selectedTable (state w))
               (columns (state w)) (formData (state w))
               "Failed to add alert" ""
         ∧ danger_alert (render w2) = Some "Failed to add alert"
         ∧ success_alert (render w2) = None
         ∧ refresh_calls effs = 0).
Proof.
  intros Hw. split; [| split].
  - eexists _, _. split; [apply step_submit |]. by split.
  - intros i err w' effs Hstep.
    apply step_post_settled in Hstep; [| done]. by destruct Hstep as [-> ->].
  - intros err. cbn [run]. rewrite step_submit.
    match goal with |- context [step ?w1 ?ev] =>
      destruct (step w1 ev) as [[w2 e2]|] eqn:E2 end.
    + assert (Hw1 : reachable
                (mkWorld (selectedDatabase w)
                   (mkState (tables (state w)) (selectedTable (state w))
                      (columns (state w)) (formData (state w)) "" "")
                   (inflight w ++
                    [suspended (handleSubmit (selectedDatabase w)
                                  (formData (state w)))]))).
      { eapply reachable_step; [exact Hw | apply step_submit]. }
      apply step_post_settled in E2; [| exact Hw1].
      destruct E2 as [-> ->]. eexists _, _. split; [reflexivity |].
      by repeat split.
    + exfalso. cbn [step inflight] in E2.
      by rewrite lookup_app_r, Nat.sub_diag in E2.
Qed.

Lemma failed_submit_keeps_draft_witness :
  reachable (after "sensors" refilled_session)
  ∧ ∃ (w2 : World) (effs : list Effect),
      run (after "sensors" refilled_session)
        [Submit;
         PostSettled (length (inflight (after "sensors" refilled_session)))
           (Rejected (AxiosError "Network Error"))]
        = Some (w2, effs)
      ∧ state w2 =
          mkState (tables (state (after "sensors" refilled_session)))
            (selectedTable (state (after "sensors" refilled_session)))
            (columns (state (after "sensors" refilled_session)))
            (formData (state (after "sensors" refilled_session)))
            "Failed to add alert" ""
      ∧ danger_alert (render w2) = Some "Failed to add alert"
      ∧ success_alert (render w2) = None
      ∧ refresh_calls effs = 0.
Proof.
  split; [apply after_reachable |].
  destruct (failed_submit_keeps_draft (after "sensors" refilled_session)
              (after_reachable _ _)) as (_ & _ & H).
  exact (H (AxiosError "Network Error")).
Defined.

(** C9 as stated fails in "only the error message changes": a first alert
    has been added, its success message is on the screen and the form is
    filled in again; the second submit fails.  The draft is as it was and
    refreshAlerts is not called, but the success message is gone as well. *)
Lemma failed_submit_clears_success_message :
  success (state (after "sensors" refilled_session)) = "Alert added successfully"
  ∧ ∃ (w2 : World) (effs : list Effect),
      run (after "sensors" refilled_session)
        [Submit; PostSettled 0 (Rejected (AxiosError "Network Error"))]
        = Some (w2, effs)
      ∧ formData (state w2) = formData (state (after "sensors" refilled_session))
      ∧ error (state w2) = "Failed to add alert"
      ∧ success (state w2) = ""
      ∧ success (state w2) ≠ success (state (after "sensors" refilled_session)).
Proof.
  split; [vm_compute; reflexivity |].
  eexists _, _. split; [vm_compute; reflexivity |].
  split; [vm_compute; reflexivity |]. split; [reflexivity |].
  split; [reflexivity |]. vm_compute. discriminate.
Qed.

(** ** Fetching the tables *)

(** C5.  A table fetch that fails leaves [tables] as it was (starting the
    fetch wrote no state at all, and the rejection writes only the error),
    the error 'Failed to fetch tables' is set and shown, and the rejection is
    handled inside fetchTables: nothing is thrown out of the component. *)
Theorem failed_table_fetch_keeps_tables (w : World) :
  reachable w →
  (∀ (db : string) (w1 : World) (e1 : list Effect),
     step w (PropsChanged db) = Some (w1, e1) →
     state w1 = state w ∧ unhandled e1 = [])
  ∧ (∀ (i : nat) (err : JsError) (w' : World) (effs : list Effect),
       step w (TablesSettled i (Rejected err)) = Some (w', effs) →
       tables (state w') = tables (state w)
       ∧ error (state w') = "Failed to fetch tables"
       ∧ danger_alert (render w') = Some "Failed to fetch tables"
       ∧ unhandled effs = []).
Proof.
  intros Hw. split.
  - intros db w1 e1 Hstep. split.
    + by rewrite (step_next_state _ _ _ _ Hw Hstep).
    + by eapply step_unhandled.
  - intros i err w' effs Hstep.
    apply step_tables_settled in Hstep; [| done].
    destruct Hstep as [-> ->]. by repeat split.
Qed.

Lemma failed_table_fetch_keeps_tables_witness :
  reachable (mount "sensors").1
  ∧ ∃ (w' : World) (effs : list Effect),
      step (mount "sensors").1
        (TablesSettled 0 (Rejected (AxiosError "Network Error")))
        = Some (w', effs)
      ∧ tables (state w') = []
      ∧ danger_alert (render w') = Some "Failed to fetch tables"
      ∧ unhandled effs = [].
Proof.
  split; [constructor |].
  destruct (failed_table_fetch_keeps_tables (mount "sensors").1
              (reachable_mount "sensors")) as [_ H].
  eexists _, _. split; [reflexivity |].
  destruct (H 0 (AxiosError "Network Error") _ _ eq_refl) as (H1 & _ & H3 & H4).
  split; [exact H1 |]. by split.
Defined.

(** ** The two selections *)

Lemma step_props_changed (w : World) (db : string) :
  db ≠ "" → db ≠ selectedDatabase w →
  ∃ (w1 : World) (e1 : list Effect),
    step w (PropsChanged db) = Some (w1, e1)
    ∧ state w1 = state w
    ∧ selectedDatabase w1 = db
    ∧ inflight w1 =
        inflight w ++ suspended (fetchTables db)
          :: (if truthy (selectedTable (state w))
              then [suspended (fetchColumns db (selectedTable (state w)))]
              else [])
    ∧ requests e1 =
        tables_request db
          :: (if truthy (selectedTable (state w))
              then [columns_request db (selectedTable (state w))] else []).
Proof.
  intros Hdb Hne. cbn [step].
  pose proof (run_effects_state w (mkWorld db (state w) (inflight w))) as H1.
  pose proof (run_effects_selectedDatabase w (mkWorld db (state w) (inflight w))) as H2.
  pose proof (run_effects_inflight w (mkWorld db (state w) (inflight w))) as H3.
  pose proof (run_effects_requests w (mkWorld db (state w) (inflight w))) as H4.
  destruct (run_effects w (mkWorld db (state w) (inflight w))) as [w1 e1].
  cbn [fst snd selectedDatabase state inflight] in H1, H2, H3, H4.
  unfold started in H4. cbn [selectedDatabase state] in H4.
  rewrite (bool_decide_eq_true_2 (selectedDatabase w ≠ db)) in H3, H4
    by (by intros ?).
  rewrite (proj2 (truthy_true db) Hdb), orb_true_r in H3, H4.
  cbn [andb] in H3, H4.
  exists w1, e1. repeat split; try done.
Qed.

Lemma step_table_change (w : World) (value : string) :
  value ≠ selectedTable (state w) →
  ∃ (w1 : World) (e1 : list Effect),
    step w (TableChange value) = Some (w1, e1)
    ∧ state w1 =
        mkState (tables (state w)) value (columns (state w))
          (formData (state w)) (error (state w)) (success (state w))
    ∧ selectedDatabase w1 = selectedDatabase w
    ∧ inflight w1 =
        inflight w
          ++ (if truthy value
              then [suspended (fetchColumns (selectedDatabase w) value)]
              else [])
    ∧ requests e1 =
        (if truthy value
         then [columns_request (selectedDatabase w) value] else []).
Proof.
  intros Hne. cbn [step].
  pose proof (dispatch_state (onChange_table value) w w) as H1.
  pose proof (dispatch_selectedDatabase (onChange_table value) w w) as H2.
  pose proof (dispatch_world (onChange_table value) w w) as H3.
  pose proof (dispatch_requests (onChange_table value) w w) as H4.
  apply (f_equal inflight) in H3.
  rewrite run_effects_inflight, launch_inflight, launch_state,
    launch_selectedDatabase in H3.
  unfold started in H4.
  rewrite launch_state, launch_selectedDatabase in H4.
  destruct (dispatch (onChange_table value) w w) as [w1 e1].
  cbn in H1, H2, H3, H4.
  rewrite (bool_decide_eq_false_2 (selectedDatabase w ≠ selectedDatabase w))
    in H3, H4 by (by intros ?).
  rewrite (bool_decide_eq_true_2 (selectedTable (state w) ≠ value))
    in H3, H4 by (by intros ?).
  cbn in H3, H4. rewrite app_nil_r in H3.
  exists w1, e1. by repeat split.
Qed.

Example sensors_session_end :
  state (after "sensors" sensors_session) =
    mkState ["readings"; "events"] "readings" ["temp"; "humidity"]
      (with_field_name (JsString "temp") emptyDraft) "" ""
  ∧ inflight (after "sensors" sensors_session) = [].
Proof. split; vm_compute; reflexivity. Qed.

Example filled_session_end :
  state (after "sensors" filled_session) =
    mkState ["readings"; "events"] "readings" ["temp"; "humidity"]
      filled_draft "" ""
  ∧ inflight (after "sensors" filled_session) = [].
Proof. split; vm_compute; reflexivity. Qed.

Lemma step_tables_enabled (w : World) (i : nat) (db : string)
    (o : Outcome TablesResponse) :
  inflight w !! i = Some (suspended (fetchTables db)) →
  ∃ (w' : World) (effs : list Effect),
    step w (TablesSettled i o) = Some (w', effs).
Proof.
  intros E. cbn [step]. rewrite E. cbn [suspended fetchTables].
  destruct (dispatch _ _ _) as [w' effs]. by exists w', effs.
Qed.

Lemma step_columns_enabled (w : World) (i : nat) (db table : string)
    (o : Outcome ColumnsResponse) :
  table ≠ "" →
  inflight w !! i = Some (suspended (fetchColumns db table)) →
  ∃ (w' : World) (effs : list Effect),
    step w (ColumnsSettled i o) = Some (w', effs).
Proof.
  intros Ht E. cbn [step]. rewrite E. unfold fetchColumns.
  rewrite (proj2 (truthy_true table) Ht). cbn [negb suspended].
  destruct (dispatch _ _ _) as [w' effs]. by exists w', effs.
Qed.

(** C3, as the code has it.  A change of the database to a non-empty value
    starts a table fetch and leaves the table selection alone.  When a table
    fetch fails, the error 'Failed to fetch tables' is set and shown and the
    table selection is left as it was; when it succeeds, the table selection
    is cleared to the empty string (and the table list replaced). *)
Theorem table_fetch_clears_selection_on_success (w : World) :
  reachable w →
  (∀ db : string, db ≠ "" → db ≠ selectedDatabase w →
     ∃ (w1 : World) (e1 : list Effect),
       step w (PropsChanged db) = Some (w1, e1)
       ∧ selectedTable (state w1) = selectedTable (state w)
       ∧ inflight w1 !! length (inflight w) = Some (suspended (fetchTables db)))
  ∧ (∀ (i : nat) (o : Outcome TablesResponse) (w' : World) (effs : list Effect),
       step w (TablesSettled i o) = Some (w', effs) →
       match o with
       | Resolved response =>
           selectedTable (state w') = ""
           ∧ tables (state w') = data_tables response
       | Rejected _ =>
           error (state w') = "Failed to fetch tables"
           ∧ danger_alert (render w') = Some "Failed to fetch tables"
           ∧ selectedTable (state w') = selectedTable (state w)
       end).
Proof.
  intros Hw. split.
  - intros db Hdb Hne.
    destruct (step_props_changed w db Hdb Hne) as (w1 & e1 & H1 & H2 & _ & H4 & _).
    exists w1, e1. split; [done |]. split; [by rewrite H2 |].
    by rewrite H4, lookup_app_r, Nat.sub_diag.
  - intros i o w' effs Hstep.
    apply step_tables_settled in Hstep; [| done].
    destruct o, Hstep as [-> ->]; by repeat split.
Qed.

Lemma table_fetch_clears_selection_on_success_witness :
  reachable (after "sensors" (sensors_session ++ [PropsChanged "archive"]))
  ∧ ∃ (w' : World) (effs : list Effect),
      step (after "sensors" (sensors_session ++ [PropsChanged "archive"]))
        (TablesSettled 0 (Resolved {| data_tables := ["log"] |}))
        = Some (w', effs)
      ∧ selectedTable (state w') = ""
      ∧ tables (state w') = ["log"].
Proof.
  split; [apply after_reachable |].
  destruct (table_fetch_clears_selection_on_success
              (after "sensors" (sensors_session ++ [PropsChanged "archive"]))
              (after_reachable _ _)) as [_ H].
  eexists _, _. computed_step E. split; [exact E |].
  exact (H 0 (Resolved {| data_tables := ["log"] |}) _ _ E).
Defined.

(** C3 as stated fails: with the table "readings" selected, the database
    changes to "archive" and the table fetch it starts is rejected.  The
    error is set, and the table selection is still "readings". *)
Lemma table_fetch_failure_keeps_selection :
  ∃ (w' : World) (effs : list Effect),
    run (mount "sensors").1
      (sensors_session
         ++ [PropsChanged "archive";
             TablesSettled 0 (Rejected (AxiosError "Network Error"))])
      = Some (w', effs)
    ∧ error (state w') = "Failed to fetch tables"
    ∧ selectedTable (state w') = "readings"
    ∧ selectedTable (state w') ≠ "".
Proof. eexists _, _. split; [vm_compute; reflexivity |]. by repeat split. Qed.

(** C2, as the code has it.  A change of the database to a non-empty value
    starts a table fetch and writes no state.  When a table fetch resolves,
    at once or after any further events, that step clears the table selection
    to the empty string, leaves the column list and the draft's field_name
    as they were just before it, and starts no column fetch: the clearing
    does not cascade.  When it is rejected, that step leaves the table
    selection, the column list and field_name as they were.  After the
    change the column list is written by a column fetch that succeeds and by
    nothing else, and field_name by the user's choice of a field, by a column
    fetch that succeeds (cleared) and by a submission that succeeds
    (cleared): so they are replaced or cleared only if a column fetch
    succeeds, such as the one the same change starts when a table is
    selected. *)
Theorem database_change_clears_table_selection_only (w : World) (db : string) :
  reachable w → db ≠ "" → db ≠ selectedDatabase w →
  ∃ (w1 : World) (e1 : list Effect),
    step w (PropsChanged db) = Some (w1, e1)
    ∧ state w1 = state w
    ∧ inflight w1 !! length (inflight w) = Some (suspended (fetchTables db))
    ∧ (∀ o : Outcome TablesResponse,
         ∃ (w2 : World) (e2 : list Effect),
           step w1 (TablesSettled (length (inflight w)) o) = Some (w2, e2)
           ∧ columns (state w2) = columns (state w)
           ∧ field_name (formData (state w2)) = field_name (formData (state w))
           ∧ selectedTable (state w2) =
               match o with
               | Resolved _ => ""
               | Rejected _ => selectedTable (state w)
               end
           ∧ requests e2 = [])
    ∧ (∀ (evs : list Event) (w2 : World) (e2 : list Effect) (i : nat)
         (o : Outcome TablesResponse) (w3 : World) (e3 : list Effect),
         run w1 evs = Some (w2, e2) →
         step w2 (TablesSettled i o) = Some (w3, e3) →
         columns (state w3) = columns (state w2)
         ∧ field_name (formData (state w3)) = field_name (formData (state w2))
         ∧ selectedTable (state w3) =
             match o with
             | Resolved _ => ""
             | Rejected _ => selectedTable (state w2)
             end
         ∧ requests e3 = [])
    ∧ (∀ (evs : list Event) (w2 : World) (e2 : list Effect) (ev : Event)
         (w3 : World) (e3 : list Effect),
         run w1 evs = Some (w2, e2) →
         step w2 ev = Some (w3, e3) →
         columns (state w3) =
           match ev with
           | ColumnsSettled _ (Resolved response) => data_columns response
           | _ => columns (state w2)
           end
         ∧ field_name (formData (state w3)) =
             match ev with
             | FieldNameChange value => JsString value
             | ColumnsSettled _ (Resolved _) => JsString ""
             | PostSettled _ (Resolved _) => JsString ""
             | _ => field_name (formData (state w2))
             end).
Proof.
  intros Hw Hdb Hne.
  destruct (step_props_changed w db Hdb Hne) as (w1 & e1 & H1 & H2 & _ & H4 & _).
  assert (Hlook : inflight w1 !! length (inflight w)
                  = Some (suspended (fetchTables db))).
  { by rewrite H4, lookup_app_r, Nat.sub_diag. }
  assert (Hw1 : reachable w1) by exact (reachable_step _ _ _ _ Hw H1).
  exists w1, e1. split; [done |]. split; [done |]. split; [done |].
  split; [| split].
  - intros o.
    destruct (step_tables_enabled w1 _ db o Hlook) as (w2 & e2 & Hstep).
    exists w2, e2. split; [done |].
    apply step_tables_settled in Hstep; [| done].
    rewrite H2 in Hstep. destruct o, Hstep as [-> ->]; by repeat split.
  - intros evs w2 e2 i o w3 e3 Hrun Hstep.
    apply step_tables_settled in Hstep; [| by eapply run_reachable].
    destruct o, Hstep as [-> ->]; by repeat split.
  - intros evs w2 e2 ev w3 e3 Hrun Hstep.
    assert (Hw2 : reachable w2) by (by eapply run_reachable).
    rewrite (step_next_state _ _ _ _ Hw2 Hstep).
    by destruct ev as [d|v|v|v|v|v|v| |i [r|e]|i [r|e]|i [r|e]].
Qed.

Lemma archive_is_another_database :
  "archive" ≠ selectedDatabase (after "sensors" sensors_session).
Proof. vm_compute. discriminate. Qed.

Lemma database_change_clears_table_selection_only_witness :
  reachable (after "sensors" sensors_session)
  ∧ "archive" ≠ ""
  ∧ "archive" ≠ selectedDatabase (after "sensors" sensors_session)
  ∧ ∃ (w1 : World) (e1 : list Effect),
      step (after "sensors" sensors_session) (PropsChanged "archive")
        = Some (w1, e1)
      ∧ ∃ (w2 : World) (e2 : list Effect),
          step w1
            (TablesSettled (length (inflight (after "sensors" sensors_session)))
               (Resolved {| data_tables := ["log"] |})) = Some (w2, e2)
          ∧ columns (state w2) = ["temp"; "humidity"]
          ∧ field_name (formData (state w2)) = JsString "temp"
          ∧ selectedTable (state w2) = ""
          ∧ requests e2 = [].
Proof.
  split; [apply after_reachable |].
  split; [discriminate |].
  split; [exact archive_is_another_database |].
  destruct (database_change_clears_table_selection_only
              (after "sensors" sensors_session) "archive"
              (after_reachable _ _) ltac:(discriminate)
              archive_is_another_database)
    as (w1 & e1 & H1 & _ & _ & H4 & _).
  exists w1, e1. split; [exact H1 |].
  destruct (H4 (Resolved {| data_tables := ["log"] |}))
    as (w2 & e2 & S2 & C & F & T & R).
  exists w2, e2. split; [exact S2 |].
  rewrite C, F. split; [vm_compute; reflexivity |].
  split; [vm_compute; reflexivity |]. split; [exact T | exact R].
Defined.

(** C2 as stated fails: with the table "readings", its columns and the field
    "temp" chosen, the database changes to "archive"; the table fetch
    resolves (and the column fetch the change started for the old table is
    rejected).  Nothing is in flight any more: the table selection is empty,
    but the column list and field_name are those of the old database. *)
Lemma database_change_keeps_columns_and_field :
  ∃ (w' : World) (effs : list Effect),
    run (mount "sensors").1
      (sensors_session
         ++ [PropsChanged "archive";
             TablesSettled 0 (Resolved {| data_tables := ["log"] |});
             ColumnsSettled 0 (Rejected (AxiosError "Request failed"))])
      = Some (w', effs)
    ∧ inflight w' = []
    ∧ selectedTable (state w') = ""
    ∧ columns (state w') = ["temp"; "humidity"]
    ∧ field_name (formData (state w')) = JsString "temp".
Proof. eexists _, _. split; [vm_compute; reflexivity |]. by repeat split. Qed.

(** ** Fetching the columns *)

(** C4, as the code has it.  A change of the table selection to the empty
    string starts no fetch and changes nothing but the selection.  A change
    to a non-empty table starts exactly one column fetch, for
    (selectedDatabase, the new table).  When a column fetch fails, the error
    'Failed to fetch columns' is set and shown and the draft's field_name is
    left as it was; when it succeeds, field_name is cleared to the empty
    string (and the column list replaced). *)
Theorem column_fetch_clears_field_on_success (w : World) (value : string) :
  reachable w → value ≠ selectedTable (state w) →
  (∃ (w1 : World) (e1 : list Effect),
     step w (TableChange value) = Some (w1, e1)
     ∧ (value = "" →
          requests e1 = []
          ∧ inflight w1 = inflight w
          ∧ state w1 =
              mkState (tables (state w)) "" (columns (state w))
                (formData (state w)) (error (state w)) (success (state w)))
     ∧ (value ≠ "" →
          requests e1 = [columns_request (selectedDatabase w) value]
          ∧ inflight w1 !! length (inflight w) =
              Some (suspended (fetchColumns (selectedDatabase w) value))
          ∧ ∀ o : Outcome ColumnsResponse,
              ∃ (w2 : World) (e2 : list Effect),
                step w1 (ColumnsSettled (length (inflight w)) o) = Some (w2, e2)
                ∧ match o with
                  | Resolved response =>
                      field_name (formData (state w2)) = JsString ""
                      ∧ columns (state w2) = data_columns response
                  | Rejected _ =>
                      error (state w2) = "Failed to fetch columns"
                      ∧ danger_alert (render w2) = Some "Failed to fetch columns"
                      ∧ field_name (formData (state w2)) =
                          field_name (formData (state w))
                  end))
  ∧ (∀ (i : nat) (o : Outcome ColumnsResponse) (w' : World) (effs : list Effect),
       step w (ColumnsSettled i o) = Some (w', effs) →
       match o with
       | Resolved response =>
           field_name (formData (state w')) = JsString ""
           ∧ columns (state w') = data_columns response
       | Rejected _ =>
           error (state w') = "Failed to fetch columns"
           ∧ danger_alert (render w') = Some "Failed to fetch columns"
           ∧ field_name (formData (state w')) = field_name (formData (state w))
       end).
Proof.
  intros Hw Hne. split.
  - destruct (step_table_change w value Hne)
      as (w1 & e1 & H1 & H2 & H3 & H4 & H5).
    exists w1, e1. split; [done |]. split.
    + intros ->. rewrite truthy_empty in H4, H5.
      rewrite app_nil_r in H4. by repeat split.
    + intros Hv. rewrite (proj2 (truthy_true value) Hv) in H4, H5.
      assert (Hlook : inflight w1 !! length (inflight w)
                = Some (suspended (fetchColumns (selectedDatabase w) value))).
      { by rewrite H4, lookup_app_r, Nat.sub_diag. }
      repeat split; try done.
      intros o.
      destruct (step_columns_enabled w1 _ _ _ o Hv Hlook) as (w2 & e2 & Hstep).
      exists w2, e2. split; [done |].
      apply step_columns_settled in Hstep; [| by eapply reachable_step].
      rewrite H2 in Hstep. destruct o, Hstep as [-> ->]; by repeat split.
  - intros i o w' effs Hstep.
    apply step_columns_settled in Hstep; [| done].
    destruct o, Hstep as [-> ->]; by repeat split.
Qed.

Lemma events_is_another_table :
  "events" ≠ selectedTable (state (after "sensors" sensors_session)).
Proof. vm_compute. discriminate. Qed.

Lemma column_fetch_clears_field_on_success_witness :
  reachable (after "sensors" sensors_session)
  ∧ "events" ≠ selectedTable (state (after "sensors" sensors_session))
  ∧ ∃ (w1 : World) (e1 : list Effect),
      step (after "sensors" sensors_session) (TableChange "events")
        = Some (w1, e1)
      ∧ requests e1 =
          [columns_request (selectedDatabase (after "sensors" sensors_session))
             "events"].
Proof.
  split; [apply after_reachable |].
  split; [exact events_is_another_table |].
  destruct (column_fetch_clears_field_on_success
              (after "sensors" sensors_session) "events"
              (after_reachable _ _) events_is_another_table)
    as [(w1 & e1 & H1 & _ & H3) _].
  exists w1, e1.
  exact (conj H1 (proj1 (H3 ltac:(discriminate)))).
Defined.

(** C4 as stated fails: with the field "temp" chosen, the user picks the
    table "events" and the column fetch it starts is rejected.  The error is
    set, and field_name is still "temp". *)
Lemma column_fetch_failure_keeps_field :
  ∃ (w' : World) (effs : list Effect),
    run (mount "sensors").1
      (sensors_session
         ++ [TableChange "events";
             ColumnsSettled 0 (Rejected (AxiosError "Network Error"))])
      = Some (w', effs)
    ∧ error (state w') = "Failed to fetch columns"
    ∧ field_name (formData (state w')) = JsString "temp"
    ∧ field_name (formData (state w')) ≠ JsString "".
Proof. eexists _, _. split; [vm_compute; reflexivity |]. by repeat split. Qed.

(** ** Which requests are sent *)

Lemma tables_request_endpoint (db : string) :
  to_endpoint "/fault_management/tables_from_db" (tables_request db) = true.
Proof. reflexivity. Qed.

Lemma columns_request_endpoint (db table : string) :
  to_endpoint "/fault_management/columns_from_db" (columns_request db table) = true
  ∧ to_endpoint "/fault_management/tables_from_db" (columns_request db table) = false.
Proof. split; reflexivity. Qed.

Lemma alert_request_endpoint (db : string) (draft : AlertDraft) :
  to_endpoint "/fault_management/add_alert" (alert_request db draft) = true.
Proof. reflexivity. Qed.

Lemma mount_requests (db : string) :
  requests (mount db).2 = if truthy db then [tables_request db] else [].
Proof.
  unfold mount, effect_tables, effect_columns.
  cbn [selectedTable state initialState]. rewrite truthy_empty.
  by destruct (truthy db).
Qed.

(** C6, as the code has it.  Selecting a non-empty database (a change of
    the prop, or the mount) sends exactly one GET to
    /fault_management/tables_from_db with the database in the query string;
    when a table is selected at the moment of the change it also sends, after
    it, exactly one GET to /fault_management/columns_from_db for the new
    database and the table still selected; and it sends nothing else.
    Selecting a non-empty table sends exactly one request, a GET to
    /fault_management/columns_from_db with the database and the table in the
    query string.  Selecting the empty table sends nothing. *)
Theorem selection_starts_its_fetch (w : World) :
  reachable w →
  (∀ db : string, db ≠ "" →
     requests (mount db).2 =
       [get apiClient ("/fault_management/tables_from_db?database=" +:+ db)])
  ∧ (∀ db : string, db ≠ "" → db ≠ selectedDatabase w →
       ∃ (w1 : World) (e1 : list Effect),
         step w (PropsChanged db) = Some (w1, e1)
         ∧ requests e1 =
             get apiClient ("/fault_management/tables_from_db?database=" +:+ db)
               :: (if truthy (selectedTable (state w))
                   then [get apiClient
                           ("/fault_management/columns_from_db?database="
                              +:+ db +:+ "&table=" +:+ selectedTable (state w))]
                   else [])
         ∧ List.filter (to_endpoint "/fault_management/tables_from_db")
             (requests e1) =
             [get apiClient ("/fault_management/tables_from_db?database=" +:+ db)])
  ∧ (∀ value : string, value ≠ "" → value ≠ selectedTable (state w) →
       ∃ (w1 : World) (e1 : list Effect),
         step w (TableChange value) = Some (w1, e1)
         ∧ requests e1 =
             [get apiClient
                ("/fault_management/columns_from_db?database="
                   +:+ selectedDatabase w +:+ "&table=" +:+ value)])
  ∧ (∃ (w1 : World) (e1 : list Effect),
       step w (TableChange "") = Some (w1, e1) ∧ requests e1 = []).
Proof.
  intros Hw. repeat split.
  - intros db Hdb. by rewrite mount_requests, (proj2 (truthy_true db) Hdb).
  - intros db Hdb Hne.
    destruct (step_props_changed w db Hdb Hne) as (w1 & e1 & H1 & _ & _ & _ & H5).
    exists w1, e1. split; [done |]. split; [exact H5 |]. rewrite H5.
    cbn [List.filter]. rewrite tables_request_endpoint.
    destruct (truthy _); [| done].
    cbn [List.filter].
    by rewrite (proj2 (columns_request_endpoint _ _)).
  - intros v Hv Hne.
    destruct (step_table_change w v Hne) as (w1 & e1 & H1 & _ & _ & _ & H5).
    exists w1, e1. split; [done |].
    by rewrite H5, (proj2 (truthy_true v) Hv).
  - destruct (step w (TableChange "")) as [[w1 e1]|] eqn:E; [| discriminate].
    exists w1, e1. split; [done |].
    rewrite (step_requests _ _ _ _ Hw E). cbn [requests_sent].
    by rewrite truthy_empty, andb_false_r.
Qed.

Lemma selection_starts_its_fetch_witness :
  reachable (after "sensors" sensors_session)
  ∧ requests (mount "sensors").2 =
      [get apiClient "/fault_management/tables_from_db?database=sensors"]
  ∧ (∃ (w1 : World) (e1 : list Effect),
       step (after "sensors" sensors_session) (PropsChanged "archive")
         = Some (w1, e1)
       ∧ requests e1 =
           [get apiClient "/fault_management/tables_from_db?database=archive";
            get apiClient
              "/fault_management/columns_from_db?database=archive&table=readings"])
  ∧ ∃ (w1 : World) (e1 : list Effect),
      step (after "sensors" sensors_session) (TableChange "events")
        = Some (w1, e1)
      ∧ requests e1 =
          [get apiClient
             ("/fault_management/columns_from_db?database="
                +:+ selectedDatabase (after "sensors" sensors_session)
                +:+ "&table=" +:+ "events")].
Proof.
  split; [apply after_reachable |].
  destruct (selection_starts_its_fetch (after "sensors" sensors_session)
              (after_reachable _ _)) as (H1 & H2 & H3 & _).
  split; [exact (H1 "sensors" ltac:(discriminate)) |].
  split.
  - destruct (H2 "archive" ltac:(discriminate) archive_is_another_database)
      as (w1 & e1 & S1 & R1 & _).
    exists w1, e1. split; [exact S1 |]. rewrite R1. vm_compute. reflexivity.
  - exact (H3 "events" ltac:(discriminate) events_is_another_table).
Defined.

(** C6 as stated fails: with the table "readings" selected, the database
    changes to "archive".  The change sends two requests, not only the table
    fetch the claim lists for it: a column fetch for ("archive", "readings")
    goes out as well. *)
Lemma database_change_sends_a_column_fetch_too :
  ∃ (w1 : World) (e1 : list Effect),
    step (after "sensors" sensors_session) (PropsChanged "archive")
      = Some (w1, e1)
    ∧ requests e1 =
        [get apiClient "/fault_management/tables_from_db?database=archive";
         get apiClient
           "/fault_management/columns_from_db?database=archive&table=readings"]
    ∧ requests e1 ≠
        [get apiClient "/fault_management/tables_from_db?database=archive"].
Proof.
  eexists _, _. split; [vm_compute; reflexivity |].
  split; [reflexivity | discriminate].
Qed.

(** A change of the database while a table is selected also starts a column
    fetch, for the new database and the table still selected: the second
    effect depends on selectedDatabase too (line 59). *)
Lemma database_change_refetches_columns (w : World) (db : string) :
  db ≠ "" → db ≠ selectedDatabase w → selectedTable (state w) ≠ "" →
  ∃ (w1 : World) (e1 : list Effect),
    step w (PropsChanged db) = Some (w1, e1)
    ∧ requests e1 =
        [tables_request db; columns_request db (selectedTable (state w))].
Proof.
  intros Hdb Hne Ht.
  destruct (step_props_changed w db Hdb Hne) as (w1 & e1 & H1 & _ & _ & _ & H5).
  exists w1, e1. split; [done |].
  by rewrite H5, (proj2 (truthy_true _) Ht).
Qed.

(** C7.  apiClient is created with the base URL http://localhost:5000 and the
    default header Content-Type: application/json, and every request the
    component sends, at the mount or in any step, is made through apiClient
    and goes to one of /fault_management/tables_from_db,
    /fault_management/columns_from_db and /fault_management/add_alert. *)
Theorem requests_go_through_apiClient :
  baseURL (defaults apiClient) = "http://localhost:5000"
  ∧ headers (defaults apiClient) = [("Content-Type", "application/json")]
  ∧ (∀ (db : string) (r : Request),
       r ∈ requests (mount db).2 →
       through r = apiClient
       ∧ (to_endpoint "/fault_management/tables_from_db" r = true
          ∨ to_endpoint "/fault_management/columns_from_db" r = true
          ∨ to_endpoint "/fault_management/add_alert" r = true))
  ∧ (∀ (w : World) (ev : Event) (w' : World) (effs : list Effect) (r : Request),
       reachable w → step w ev = Some (w', effs) → r ∈ requests effs →
       through r = apiClient
       ∧ (to_endpoint "/fault_management/tables_from_db" r = true
          ∨ to_endpoint "/fault_management/columns_from_db" r = true
          ∨ to_endpoint "/fault_management/add_alert" r = true)).
Proof.
  split; [done |]. split; [done |]. split.
  - intros db r. rewrite mount_requests.
    destruct (truthy db); [| by intros ?%elem_of_nil].
    intros ->%list_elem_of_singleton. split; [done |]. by left.
  - intros w ev w' effs r Hw Hstep. rewrite (step_requests _ _ _ _ Hw Hstep).
    destruct ev as [db|v|v|v|v|v|v| |i o|i o|i o]; cbn [requests_sent];
      try (by intros ?%elem_of_nil).
    + case_bool_decide; [| by intros ?%elem_of_nil].
      intros [Hr|Hr]%elem_of_app.
      * destruct (truthy db); [| by apply elem_of_nil in Hr].
        apply list_elem_of_singleton in Hr as ->. split; [done |]. by left.
      * destruct (truthy _); [| by apply elem_of_nil in Hr].
        apply list_elem_of_singleton in Hr as ->. split; [done |]. right. by left.
    + destruct (_ && _); [| by intros ?%elem_of_nil].
      intros ->%list_elem_of_singleton. split; [done |]. right. by left.
    + intros ->%list_elem_of_singleton. split; [done |]. right. by right.
Qed.

Lemma requests_go_through_apiClient_witness :
  reachable (after "sensors" filled_session)
  ∧ ∃ (w' : World) (effs : list Effect),
      step (after "sensors" filled_session) Submit = Some (w', effs)
      ∧ requests effs = [alert_request "sensors" filled_draft]
      ∧ through (alert_request "sensors" filled_draft) = apiClient
      ∧ full_url (alert_request "sensors" filled_draft) =
          "http://localhost:5000/fault_management/add_alert?database=sensors".
Proof.
  split; [apply after_reachable |].
  destruct requests_go_through_apiClient as (_ & _ & _ & H).
  eexists _, _. computed_step E. split; [exact E |].
  split; [| split; [| reflexivity]].
  - vm_compute; reflexivity.
  - apply (H (after "sensors" filled_session) Submit _ _
             (alert_request "sensors" filled_draft) (after_reachable _ _) E).
    vm_compute. apply list_elem_of_here.
Defined.

(** ** The draft *)

Lemma mount_state (db : string) : state (mount db).1 = initialState.
Proof.
  unfold mount, effect_tables, effect_columns.
  cbn [selectedTable state initialState]. rewrite truthy_empty.
  by destruct (truthy db).
Qed.

Lemma step_next_draft (w : World) (ev : Event) (w' : World) (effs : list Effect) :
  reachable w → step w ev = Some (w', effs) →
  formData (state w') = next_draft (formData (state w)) ev.
Proof.
  intros Hw Hstep. rewrite (step_next_state _ _ _ _ Hw Hstep).
  by destruct ev as [db|v|v|v|v|v|v| |i [r|e]|i [r|e]|i [r|e]].
Qed.

Lemma next_draft_typed (d : AlertDraft) (ev : Event) :
  draft_typed d = true → draft_typed (next_draft d ev) = true.
Proof.
  unfold draft_typed. rewrite !andb_true_iff. intros ((((Ht & Hm) & Hf) & Hl) & Hh).
  destruct ev as [db|v|v|v|v|v|v| |i [r|e]|i [r|e]|i [r|e]];
    cbn [next_draft with_field_name with_alert_title with_alert_message
         with_lower_bound with_higher_bound alert_title alert_message
         field_name lower_bound higher_bound emptyDraft is_string is_number
         is_empty_string];
    rewrite ?orb_true_r; repeat split; done.
Qed.

Lemma reachable_draft_typed (w : World) :
  reachable w → draft_typed (formData (state w)) = true.
Proof.
  induction 1 as [db|w ev w' effs Hw IH Hstep].
  - by rewrite mount_state.
  - rewrite (step_next_draft _ _ _ _ Hw Hstep). by apply next_draft_typed.
Qed.

(** C8, as the code has it.  In every world the component can be in,
    alert_title, alert_message and field_name are strings and lower_bound and
    higher_bound are each either the empty string or a number.  The draft is
    the empty draft at the mount; a change of a form control writes that one
    field (a bound becomes the number parseFloat gives for the text typed);
    a column fetch that succeeds clears field_name; a submission that
    succeeds resets the draft to the empty draft; no other event writes
    it. *)
Theorem draft_fields_keep_their_types (w : World) :
  reachable w →
  draft_typed (formData (state w)) = true
  ∧ (∀ db : string, formData (state (mount db).1) = emptyDraft)
  ∧ (∀ (ev : Event) (w' : World) (effs : list Effect),
       step w ev = Some (w', effs) →
       formData (state w') =
         match ev with
         | FieldNameChange value =>
             with_field_name (JsString value) (formData (state w))
         | AlertTitleChange value =>
             with_alert_title (JsString value) (formData (state w))
         | AlertMessageChange value =>
             with_alert_message (JsString value) (formData (state w))
         | LowerBoundChange value =>
             with_lower_bound (JsNum (parseFloat value)) (formData (state w))
         | HigherBoundChange value =>
             with_higher_bound (JsNum (parseFloat value)) (formData (state w))
         | ColumnsSettled _ (Resolved _) =>
             with_field_name (JsString "") (formData (state w))
         | PostSettled _ (Resolved _) => emptyDraft
         | _ => formData (state w)
         end).
Proof.
  intros Hw. split; [by apply reachable_draft_typed |]. split.
  - intros db. by rewrite mount_state.
  - intros ev w' effs Hstep. apply (step_next_draft _ _ _ _ Hw Hstep).
Qed.

Lemma draft_fields_keep_their_types_witness :
  reachable (after "sensors" (sensors_session ++ [LowerBoundChange "10.5"]))
  ∧ draft_typed
      (formData
         (state (after "sensors" (sensors_session ++ [LowerBoundChange "10.5"]))))
    = true.
Proof.
  split; [apply after_reachable |].
  exact (proj1 (draft_fields_keep_their_types
                  (after "sensors" (sensors_session ++ [LowerBoundChange "10.5"]))
                  (after_reachable _ _))).
Defined.

(** C8 as stated fails: at the mount, and again after a submission that
    succeeded, lower_bound and higher_bound are the empty string, which is
    not a number. *)
Lemma bounds_start_as_strings :
  lower_bound (formData (state (mount "sensors").1)) = JsString ""
  ∧ higher_bound (formData (state (mount "sensors").1)) = JsString ""
  ∧ is_number (lower_bound (formData (state (mount "sensors").1))) = false
  ∧ draft_strings_and_numbers (formData (state (mount "sensors").1)) = false
  ∧ ∃ (w' : World) (effs : list Effect),
      run (mount "sensors").1
        (sensors_session
           ++ [AlertTitleChange "hot"; AlertMessageChange "too hot";
               LowerBoundChange "10.5"; HigherBoundChange "40";
               Submit; PostSettled 0 (Resolved {| data_unused := () |})])
        = Some (w', effs)
      ∧ draft_strings_and_numbers (formData (state w')) = false.
Proof.
  repeat split; try reflexivity.
  eexists _, _. split; [vm_compute; reflexivity |]. reflexivity.
Qed.

(** ** What a successful table fetch leaves alone *)

(** C10, as the code has it.  A table fetch that succeeds writes the table
    list and the table selection and nothing else: the column list, the
    whole draft (field_name included) and both messages are left as they
    were, and no request is sent.  The column list is written by one event
    only, a column fetch that succeeds; and a column fetch is started only by
    the selection of a non-empty table or by a change of the database while
    a table is selected.  So a column list fetched for the previous database
    stays until one of these two fetches succeeds. *)
Theorem table_fetch_success_frame (w : World) :
  reachable w →
  (∀ (i : nat) (response : TablesResponse) (w' : World) (effs : list Effect),
     step w (TablesSettled i (Resolved response)) = Some (w', effs) →
     tables (state w') = data_tables response
     ∧ selectedTable (state w') = ""
     ∧ columns (state w') = columns (state w)
     ∧ formData (state w') = formData (state w)
     ∧ error (state w') = error (state w)
     ∧ success (state w') = success (state w)
     ∧ requests effs = [])
  ∧ (∀ (ev : Event) (w' : World) (effs : list Effect),
       step w ev = Some (w', effs) →
       columns (state w') =
         match ev with
         | ColumnsSettled _ (Resolved response) => data_columns response
         | _ => columns (state w)
         end)
  ∧ (∀ (ev : Event) (w' : World) (effs : list Effect) (r : Request),
       step w ev = Some (w', effs) → r ∈ requests effs →
       to_endpoint "/fault_management/columns_from_db" r = true →
       (∃ value : string,
          ev = TableChange value ∧ value ≠ ""
          ∧ r = columns_request (selectedDatabase w) value)
       ∨ (∃ db : string,
            ev = PropsChanged db ∧ selectedTable (state w) ≠ ""
            ∧ r = columns_request db (selectedTable (state w)))).
Proof.
  intros Hw. split; [| split].
  - intros i response w' effs Hstep.
    apply step_tables_settled in Hstep; [| done].
    destruct Hstep as [-> ->]. by repeat split.
  - intros ev w' effs Hstep. rewrite (step_next_state _ _ _ _ Hw Hstep).
    by destruct ev as [db|v|v|v|v|v|v| |i [r|e]|i [r|e]|i [r|e]].
  - intros ev w' effs r Hstep. rewrite (step_requests _ _ _ _ Hw Hstep).
    destruct ev as [db|v|v|v|v|v|v| |i o|i o|i o]; cbn [requests_sent];
      try (by intros ?%elem_of_nil).
    + case_bool_decide; [| by intros ?%elem_of_nil].
      intros [Hr|Hr]%elem_of_app.
      * destruct (truthy db); [| by apply elem_of_nil in Hr].
        apply list_elem_of_singleton in Hr as ->. discriminate.
      * destruct (truthy _) eqn:Ht; [| by apply elem_of_nil in Hr].
        apply list_elem_of_singleton in Hr as ->. intros _. right.
        exists db. by rewrite truthy_true in Ht.
    + destruct (_ && truthy v) eqn:Hc; [| by intros ?%elem_of_nil].
      intros ->%list_elem_of_singleton _. left. exists v.
      apply andb_true_iff in Hc as [_ Ht]. by rewrite truthy_true in Ht.
    + intros ->%list_elem_of_singleton. discriminate.
Qed.

Lemma table_fetch_success_frame_witness :
  reachable (after "sensors" (sensors_session ++ [PropsChanged "archive"]))
  ∧ ∃ (w' : World) (effs : list Effect),
      step (after "sensors" (sensors_session ++ [PropsChanged "archive"]))
        (TablesSettled 0 (Resolved {| data_tables := ["log"] |}))
        = Some (w', effs)
      ∧ tables (state w') = ["log"]
      ∧ selectedTable (state w') = ""
      ∧ columns (state w') = ["temp"; "humidity"]
      ∧ field_name (formData (state w')) = JsString "temp".
Proof.
  split; [apply after_reachable |].
  destruct (table_fetch_success_frame
              (after "sensors" (sensors_session ++ [PropsChanged "archive"]))
              (after_reachable _ _)) as [H _].
  eexists _, _. computed_step E. split; [exact E |].
  destruct (H 0 {| data_tables := ["log"] |} _ _ E) as (H1 & H2 & _).
  split; [exact H1 |]. split; [exact H2 |]. split; reflexivity.
Defined.

(** C10 as stated fails in its last part: the database changes to "archive"
    while the table "readings" is selected, which starts a column fetch for
    ("archive", "readings") next to the table fetch.  Both succeed.  No table
    was selected after the change, yet the column list of the previous
    database is gone. *)
Lemma column_list_replaced_without_table_selection :
  ∃ (w' : World) (effs : list Effect),
    run (after "sensors" sensors_session)
      [PropsChanged "archive";
       TablesSettled 0 (Resolved {| data_tables := ["readings"] |});
       ColumnsSettled 0 (Resolved {| data_columns := ["pressure"] |})]
      = Some (w', effs)
    ∧ columns (state (after "sensors" sensors_session)) = ["temp"; "humidity"]
    ∧ columns (state w') = ["pressure"]
    ∧ selectedTable (state w') = ""
    ∧ requests effs =
        [tables_request "archive"; columns_request "archive" "readings"].
Proof. eexists _, _. split; [vm_compute; reflexivity |]. by repeat split. Qed.

(** * Further properties *)

(** ** Responses that arrive late *)

Example overtaken_tables_session_end :
  selectedDatabase (after "sensors" overtaken_tables_session) = "archive"
  ∧ tables (state (after "sensors" overtaken_tables_session)) = ["log"]
  ∧ inflight (after "sensors" overtaken_tables_session)
    = [suspended (fetchTables "sensors")].
Proof. repeat split; vm_compute; reflexivity. Qed.

Example overtaken_columns_session_end :
  selectedTable (state (after "sensors" overtaken_columns_session)) = "events"
  ∧ columns (state (after "sensors" overtaken_columns_session)) = ["kind"; "at"]
  ∧ field_name (formData (state (after "sensors" overtaken_columns_session)))
    = JsString "kind"
  ∧ inflight (after "sensors" overtaken_columns_session)
    = [suspended (fetchColumns "sensors" "readings")].
Proof. repeat split; vm_compute; reflexivity. Qed.

(** X1.  fetchTables applies its response without looking at the database
    it was sent for: when a table fetch for a database that is no longer the
    selected one resolves, its tables replace the table list (and are the
    options of the table select) and the table selection is cleared, while
    selectedDatabase stays what it is. *)
Theorem late_table_response_is_applied (w : World) (i : nat) (db : string)
    (response : TablesResponse) :
  reachable w →
  inflight w !! i = Some (suspended (fetchTables db)) →
  db ≠ selectedDatabase w →
  ∃ (w' : World) (effs : list Effect),
    step w (TablesSettled i (Resolved response)) = Some (w', effs)
    ∧ selectedDatabase w' = selectedDatabase w
    ∧ tables (state w') = data_tables response
    ∧ table_options (render w') = "" :: data_tables response
    ∧ selectedTable (state w') = "".
Proof.
  intros Hw Hlook _.
  destruct (step_tables_enabled w i db (Resolved response) Hlook)
    as (w' & effs & Hstep).
  exists w', effs. split; [done |].
  apply step_tables_settled in Hstep; [| done].
  destruct Hstep as [-> ->]. by repeat split.
Qed.

Lemma overtaken_tables_lookup :
  inflight (after "sensors" overtaken_tables_session) !! 0
  = Some (suspended (fetchTables "sensors")).
Proof. vm_compute. reflexivity. Qed.

Lemma overtaken_tables_other_database :
  "sensors" ≠ selectedDatabase (after "sensors" overtaken_tables_session).
Proof. vm_compute. discriminate. Qed.

Lemma late_table_response_is_applied_witness :
  reachable (after "sensors" overtaken_tables_session)
  ∧ inflight (after "sensors" overtaken_tables_session) !! 0
    = Some (suspended (fetchTables "sensors"))
  ∧ "sensors" ≠ selectedDatabase (after "sensors" overtaken_tables_session)
  ∧ ∃ (w' : World) (effs : list Effect),
      step (after "sensors" overtaken_tables_session)
        (TablesSettled 0 (Resolved {| data_tables := ["readings"; "events"] |}))
        = Some (w', effs)
      ∧ selectedDatabase w'
        = selectedDatabase (after "sensors" overtaken_tables_session)
      ∧ tables (state w') = ["readings"; "events"].
Proof.
  split; [apply after_reachable |].
  split; [exact overtaken_tables_lookup |].
  split; [exact overtaken_tables_other_database |].
  destruct (late_table_response_is_applied
              (after "sensors" overtaken_tables_session) 0 "sensors"
              {| data_tables := ["readings"; "events"] |}
              (after_reachable _ _) overtaken_tables_lookup
              overtaken_tables_other_database)
    as (w' & effs & H1 & H2 & H3 & _).
  exists w', effs. exact (conj H1 (conj H2 H3)).
Defined.

(** X2.  fetchColumns applies its response without looking at the table it
    was sent for: when a column fetch for a table that is no longer the
    selected one resolves, its columns replace the column list and the
    draft's field_name is cleared, whatever field the user had picked in the
    meantime; the table selection stays what it is. *)
Theorem late_column_response_is_applied (w : World) (i : nat) (db table : string)
    (response : ColumnsResponse) :
  reachable w →
  table ≠ "" →
  inflight w !! i = Some (suspended (fetchColumns db table)) →
  table ≠ selectedTable (state w) →
  ∃ (w' : World) (effs : list Effect),
    step w (ColumnsSettled i (Resolved response)) = Some (w', effs)
    ∧ selectedTable (state w') = selectedTable (state w)
    ∧ columns (state w') = data_columns response
    ∧ field_name (formData (state w')) = JsString "".
Proof.
  intros Hw Ht Hlook _.
  destruct (step_columns_enabled w i db table (Resolved response) Ht Hlook)
    as (w' & effs & Hstep).
  exists w', effs. split; [done |].
  apply step_columns_settled in Hstep; [| done].
  destruct Hstep as [-> ->]. by repeat split.
Qed.

Lemma overtaken_columns_lookup :
  inflight (after "sensors" overtaken_columns_session) !! 0
  = Some (suspended (fetchColumns "sensors" "readings")).
Proof. vm_compute. reflexivity. Qed.

Lemma overtaken_columns_other_table :
  "readings" ≠ selectedTable (state (after "sensors" overtaken_columns_session)).
Proof. vm_compute. discriminate. Qed.

Lemma late_column_response_is_applied_witness :
  reachable (after "sensors" overtaken_columns_session)
  ∧ "readings" ≠ ""
  ∧ inflight (after "sensors" overtaken_columns_session) !! 0
    = Some (suspended (fetchColumns "sensors" "readings"))
  ∧ "readings" ≠ selectedTable (state (after "sensors" overtaken_columns_session))
  ∧ ∃ (w' : World) (effs : list Effect),
      step (after "sensors" overtaken_columns_session)
        (ColumnsSettled 0 (Resolved {| data_columns := ["temp"; "humidity"] |}))
        = Some (w', effs)
      ∧ selectedTable (state w')
        = selectedTable (state (after "sensors" overtaken_columns_session))
      ∧ columns (state w') = ["temp"; "humidity"]
      ∧ field_name (formData (state w')) = JsString "".
Proof.
  split; [apply after_reachable |].
  split; [discriminate |].
  split; [exact overtaken_columns_lookup |].
  split; [exact overtaken_columns_other_table |].
  exact (late_column_response_is_applied
           (after "sensors" overtaken_columns_session) 0 "sensors" "readings"
           {| data_columns := ["temp"; "humidity"] |}
           (after_reachable _ _) ltac:(discriminate) overtaken_columns_lookup
           overtaken_columns_other_table).
Defined.

(** ** The two messages *)

Lemma next_state_messages (s : State) (ev : Event) :
  error s ∈ fixed_errors → success s ∈ fixed_successes →
  error (next_state s ev) ∈ fixed_errors
  ∧ success (next_state s ev) ∈ fixed_successes.
Proof.
  intros He Hs. unfold fixed_errors, fixed_successes in *.
  destruct ev as [db|v|v|v|v|v|v| |i [r|e]|i [r|e]|i [r|e]];
    cbn [next_state error success]; split; try done;
    rewrite !elem_of_cons; auto.
Qed.

(** X3.  Whatever happens, the error shown is one of the three fixed
    strings or none, and the success message is the one fixed string or
    none: no text of a response or of a thrown error ever reaches the
    user. *)
Theorem messages_are_fixed_strings (w : World) :
  reachable w →
  error (state w) ∈ fixed_errors ∧ success (state w) ∈ fixed_successes.
Proof.
  induction 1 as [db|w ev w' effs Hw IH Hstep].
  - rewrite mount_state. split; apply list_elem_of_here.
  - rewrite (step_next_state _ _ _ _ Hw Hstep).
    destruct IH as [He Hs]. by apply next_state_messages.
Qed.

Lemma messages_are_fixed_strings_witness :
  reachable (after "sensors"
               (sensors_session
                  ++ [PropsChanged "archive";
                      TablesSettled 0 (Rejected (AxiosError "timeout of 0ms exceeded"))]))
  ∧ error (state (after "sensors"
               (sensors_session
                  ++ [PropsChanged "archive";
                      TablesSettled 0 (Rejected (AxiosError "timeout of 0ms exceeded"))])))
    ∈ fixed_errors.
Proof.
  split; [apply after_reachable |].
  exact (proj1 (messages_are_fixed_strings _ (after_reachable _ _))).
Defined.

(** X4.  Only a submit takes a message away: across every other event an
    error that is shown stays shown (or is replaced by another error) and a
    success message that is shown stays shown.  In particular a fetch that
    succeeds after one that failed leaves the error of the failed one on the
    screen. *)
Theorem only_submit_clears_messages (w : World) (ev : Event) (w' : World)
    (effs : list Effect) :
  reachable w → step w ev = Some (w', effs) → ev ≠ Submit →
  (danger_alert (render w) ≠ None → danger_alert (render w') ≠ None)
  ∧ (success_alert (render w) ≠ None → success_alert (render w') ≠ None)
  ∧ (∀ (i : nat) (response : TablesResponse),
       ev = TablesSettled i (Resolved response) →
       error (state w') = error (state w))
  ∧ (∀ (i : nat) (response : ColumnsResponse),
       ev = ColumnsSettled i (Resolved response) →
       error (state w') = error (state w)).
Proof.
  intros Hw Hstep Hev.
  pose proof (step_next_state _ _ _ _ Hw Hstep) as Hs.
  cbn [render danger_alert success_alert]. rewrite Hs.
  split; [| split; [| split]].
  - destruct ev as [db|v|v|v|v|v|v| |i [r|e]|i [r|e]|i [r|e]];
      cbn [next_state error]; try done;
      intros _; by (vm_compute; discriminate).
  - destruct ev as [db|v|v|v|v|v|v| |i [r|e]|i [r|e]|i [r|e]];
      cbn [next_state success]; try done;
      intros _; by (vm_compute; discriminate).
  - by intros i response ->.
  - by intros i response ->.
Qed.

Lemma only_submit_clears_messages_witness :
  ∃ (w' : World) (effs : list Effect),
    step (after "sensors"
            [TablesSettled 0 (Rejected (AxiosError "Network Error"));
             PropsChanged "archive"])
      (TablesSettled 0 (Resolved {| data_tables := ["log"] |})) = Some (w', effs)
    ∧ tables (state w') = ["log"]
    ∧ danger_alert (render w') ≠ None.
Proof.
  eexists _, _. computed_step E. split; [exact E |].
  split; [vm_compute; reflexivity |].
  refine (proj1 (only_submit_clears_messages _ _ _ _ (after_reachable _ _) E
                   ltac:(discriminate)) _).
  vm_compute. discriminate.
Defined.

(** ** Selections at the edges *)

(** X5.  The empty database is never fetched for: mounting on it sends
    nothing, and a change of the prop to it sends no table fetch and leaves
    the state, the old table list included, as it was.  The second effect
    has no such guard on the database: if a table is selected at that
    moment, a column fetch is sent with an empty database in its query
    string. *)
Theorem empty_database_is_not_fetched (w : World) :
  reachable w → selectedDatabase w ≠ "" →
  (mount "").2 = [] ∧ inflight (mount "").1 = []
  ∧ ∃ (w1 : World) (e1 : list Effect),
      step w (PropsChanged "") = Some (w1, e1)
      ∧ selectedDatabase w1 = ""
      ∧ state w1 = state w
      ∧ requests e1 =
          (if truthy (selectedTable (state w))
           then [get apiClient
                   ("/fault_management/columns_from_db?database=&table="
                      +:+ selectedTable (state w))]
           else []).
Proof.
  intros Hw Hdb. split; [done |]. split; [done |].
  destruct (step w (PropsChanged "")) as [[w1 e1]|] eqn:E; [| discriminate].
  exists w1, e1. split; [done |].
  rewrite (step_selectedDatabase _ _ _ _ Hw E),
    (step_next_state _ _ _ _ Hw E), (step_requests _ _ _ _ Hw E).
  cbn [next_state requests_sent].
  rewrite (bool_decide_eq_true_2 (selectedDatabase w ≠ "")) by done.
  rewrite truthy_empty. by repeat split.
Qed.

Lemma empty_database_is_not_fetched_witness :
  reachable (after "sensors" sensors_session)
  ∧ selectedDatabase (after "sensors" sensors_session) ≠ ""
  ∧ ∃ (w1 : World) (e1 : list Effect),
      step (after "sensors" sensors_session) (PropsChanged "") = Some (w1, e1)
      ∧ requests e1 =
          [get apiClient "/fault_management/columns_from_db?database=&table=readings"].
Proof.
  assert (Hdb : selectedDatabase (after "sensors" sensors_session) ≠ "")
    by (vm_compute; discriminate).
  split; [apply after_reachable |]. split; [exact Hdb |].
  destruct (empty_database_is_not_fetched (after "sensors" sensors_session)
              (after_reachable _ _) Hdb) as (_ & _ & w1 & e1 & H1 & _ & _ & H4).
  exists w1, e1. split; [exact H1 |].
  rewrite H4. vm_compute. reflexivity.
Defined.

(** X6.  A change of the database made while a table is selected sends two
    requests, the table fetch and then a column fetch for the new database
    and the table still selected, and parks both.  When both succeed, in
    either order, the result is the same: no table is selected, the column
    list is the one received for the old table's name in the new database,
    and field_name is cleared. *)
Theorem database_change_with_table_selected (w : World) (db : string)
    (rt : TablesResponse) (rc : ColumnsResponse) :
  reachable w → db ≠ "" → db ≠ selectedDatabase w →
  selectedTable (state w) ≠ "" →
  ∃ (w1 : World) (e1 : list Effect),
    step w (PropsChanged db) = Some (w1, e1)
    ∧ requests e1 =
        [get apiClient ("/fault_management/tables_from_db?database=" +:+ db);
         get apiClient
           ("/fault_management/columns_from_db?database=" +:+ db
              +:+ "&table=" +:+ selectedTable (state w))]
    ∧ ∃ (wa wb : World) (ea eb : list Effect),
        run w1 [TablesSettled (length (inflight w)) (Resolved rt);
                ColumnsSettled (length (inflight w)) (Resolved rc)]
          = Some (wa, ea)
        ∧ run w1 [ColumnsSettled (S (length (inflight w))) (Resolved rc);
                  TablesSettled (length (inflight w)) (Resolved rt)]
            = Some (wb, eb)
        ∧ state wa = state wb
        ∧ inflight wa = inflight w ∧ inflight wb = inflight w
        ∧ state wa =
            mkState (data_tables rt) "" (data_columns rc)
              (with_field_name (JsString "") (formData (state w)))
              (error (state w)) (success (state w)).
Proof.
  intros Hw Hdb Hne Ht.
  destruct (step_props_changed w db Hdb Hne) as (w1 & e1 & H1 & H2 & H3 & H4 & H5).
  rewrite (proj2 (truthy_true _) Ht) in H4, H5.
  assert (Hw1 : reachable w1) by exact (reachable_step _ _ _ _ Hw H1).
  set (n := length (inflight w)) in *.
  assert (L0 : inflight w1 !! n = Some (suspended (fetchTables db))).
  { by rewrite H4, lookup_app_r, Nat.sub_diag. }
  assert (L1 : inflight w1 !! S n
               = Some (suspended (fetchColumns db (selectedTable (state w))))).
  { rewrite H4, lookup_app_r by (unfold n; lia).
    by replace (S n - length (inflight w)) with 1 by (unfold n; lia). }
  exists w1, e1. split; [done |]. split; [done |].
  (* the table fetch first *)
  destruct (step_tables_enabled w1 n db (Resolved rt) L0) as (w2 & e2 & S2).
  pose proof (step_tables_settled _ _ _ _ _ Hw1 S2) as [E2 _].
  assert (Hw2 : reachable w2) by exact (reachable_step _ _ _ _ Hw1 S2).
  assert (L2 : inflight w2 !! n
               = Some (suspended (fetchColumns db (selectedTable (state w))))).
  { rewrite E2. cbn [inflight]. by rewrite list_lookup_delete_ge by lia. }
  destruct (step_columns_enabled w2 n db _ (Resolved rc) Ht L2) as (wa & ea & Sa).
  pose proof (step_columns_settled _ _ _ _ _ Hw2 Sa) as [Ea _].
  (* the column fetch first *)
  destruct (step_columns_enabled w1 (S n) db _ (Resolved rc) Ht L1)
    as (w3 & e3 & S3).
  pose proof (step_columns_settled _ _ _ _ _ Hw1 S3) as [E3 _].
  assert (Hw3 : reachable w3) by exact (reachable_step _ _ _ _ Hw1 S3).
  assert (L3 : inflight w3 !! n = Some (suspended (fetchTables db))).
  { rewrite E3. cbn [inflight]. by rewrite list_lookup_delete_lt by lia. }
  destruct (step_tables_enabled w3 n db (Resolved rt) L3) as (wb & eb & Sb).
  pose proof (step_tables_settled _ _ _ _ _ Hw3 Sb) as [Eb _].
  exists wa, wb, (e2 ++ ea ++ []), (e3 ++ eb ++ []).
  cbn [run]. rewrite S2, Sa, S3, Sb.
  split; [done |]. split; [done |].
  rewrite Ea, Eb, E2, E3, H2, H4.
  cbn [state inflight tables selectedTable columns formData error success].
  fold n.
  assert (D1 : delete n (delete n (inflight w ++
                 [suspended (fetchTables db);
                  suspended (fetchColumns db (selectedTable (state w)))]))
               = inflight w).
  { unfold n. rewrite delete_middle.
    rewrite (delete_middle (inflight w) [] _). by rewrite app_nil_r. }
  assert (D2 : delete n (delete (S n) (inflight w ++
                 [suspended (fetchTables db);
                  suspended (fetchColumns db (selectedTable (state w)))]))
               = inflight w).
  { unfold n.
    replace (inflight w ++ [suspended (fetchTables db);
               suspended (fetchColumns db (selectedTable (state w)))])
      with ((inflight w ++ [suspended (fetchTables db)])
              ++ [suspended (fetchColumns db (selectedTable (state w)))])
      by (by rewrite <- app_assoc).
    replace (S (length (inflight w)))
      with (length (inflight w ++ [suspended (fetchTables db)]))
      by (rewrite length_app; cbn; lia).
    rewrite (delete_middle _ [] _), app_nil_r.
    rewrite (delete_middle (inflight w) [] _). by rewrite app_nil_r. }
  by rewrite D1, D2.
Qed.

Lemma database_change_with_table_selected_witness :
  "archive" ≠ ""
  ∧ "archive" ≠ selectedDatabase (after "sensors" sensors_session)
  ∧ selectedTable (state (after "sensors" sensors_session)) ≠ ""
  ∧ ∃ (w1 : World) (e1 : list Effect),
      step (after "sensors" sensors_session) (PropsChanged "archive")
        = Some (w1, e1)
      ∧ requests e1 =
          [get apiClient
             ("/fault_management/tables_from_db?database=" +:+ "archive");
           get apiClient
             ("/fault_management/columns_from_db?database=" +:+ "archive"
                +:+ "&table="
                +:+ selectedTable (state (after "sensors" sensors_session)))].
Proof.
  assert (Ht : selectedTable (state (after "sensors" sensors_session)) ≠ "")
    by (vm_compute; discriminate).
  split; [discriminate |].
  split; [exact archive_is_another_database |].
  split; [exact Ht |].
  destruct (database_change_with_table_selected
              (after "sensors" sensors_session) "archive"
              {| data_tables := ["readings"] |}
              {| data_columns := ["pressure"] |}
              (after_reachable _ _) ltac:(discriminate)
              archive_is_another_database Ht)
    as (w1 & e1 & H1 & H2 & _).
  exists w1, e1. exact (conj H1 H2).
Defined.

(** X7.  An event that changes nothing starts nothing: a render with the
    database it already had, and the selection of the table that is already
    selected, send no request, park nothing and leave the state as it
    was. *)
Theorem unchanged_selection_starts_nothing (w : World) :
  (∃ w1 : World,
     step w (PropsChanged (selectedDatabase w)) = Some (w1, [])
     ∧ selectedDatabase w1 = selectedDatabase w
     ∧ state w1 = state w ∧ inflight w1 = inflight w)
  ∧ (∃ w1 : World,
       step w (TableChange (selectedTable (state w))) = Some (w1, [])
       ∧ selectedDatabase w1 = selectedDatabase w
       ∧ state w1 = state w ∧ inflight w1 = inflight w).
Proof.
  split.
  - eexists. cbn [step]. rewrite run_effects_no_fetch by auto. by repeat split.
  - eexists. cbn [step]. rewrite dispatch_no_fetch by auto.
    unfold launch, onChange_table.
    cbn [run_sync perform fst snd park rejection app].
    rewrite app_nil_r. repeat split; cbn [state inflight]; by destruct (state w).
Qed.

(** ** Submits, POSTs and refreshes over a whole session *)

Lemma requests_app (e1 e2 : list Effect) :
  requests (e1 ++ e2) = requests e1 ++ requests e2.
Proof. apply omap_app. Qed.

Lemma posts_sent_app (e1 e2 : list Effect) :
  posts_sent (e1 ++ e2) = posts_sent e1 + posts_sent e2.
Proof.
  unfold posts_sent. by rewrite requests_app, List.filter_app, length_app.
Qed.

Lemma refresh_calls_app (e1 e2 : list Effect) :
  refresh_calls (e1 ++ e2) = refresh_calls e1 + refresh_calls e2.
Proof. unfold refresh_calls. by rewrite omap_app, length_app. Qed.

Lemma step_posts_sent (w : World) (ev : Event) (w' : World) (effs : list Effect) :
  reachable w → step w ev = Some (w', effs) →
  posts_sent effs = submits [ev].
Proof.
  intros Hw Hstep. unfold posts_sent.
  rewrite (step_requests _ _ _ _ Hw Hstep).
  destruct ev as [db|v|v|v|v|v|v| |i o|i o|i o]; cbn [requests_sent]; try done.
  - destruct (bool_decide _); [| done].
    by destruct (truthy db), (truthy (selectedTable (state w))).
  - by destruct (_ && _).
Qed.

(** X8.  Over any sequence of events, the component has sent exactly one
    POST to the alert-creation endpoint per submit: nothing else sends one,
    and no submit is dropped or merged, whether or not an earlier POST is
    still in flight. *)
Theorem one_post_per_submit (w : World) (evs : list Event) (w' : World)
    (effs : list Effect) :
  reachable w → run w evs = Some (w', effs) →
  posts_sent effs = submits evs.
Proof.
  revert w effs. induction evs as [|ev evs IH]; intros w effs Hw Hrun;
    cbn [run] in Hrun.
  - by injection Hrun as _ <-.
  - destruct (step w ev) as [[w1 e1]|] eqn:E1; [| discriminate].
    destruct (run w1 evs) as [[w2 e2]|] eqn:E2; [| discriminate].
    injection Hrun as <- <-.
    rewrite posts_sent_app, (step_posts_sent _ _ _ _ Hw E1).
    rewrite (IH w1 e2); [| by eapply reachable_step | exact E2].
    unfold submits. by destruct ev.
Qed.

Lemma one_post_per_submit_witness :
  ∃ (w' : World) (effs : list Effect),
    run (after "sensors" filled_session)
      [Submit; Submit; PostSettled 0 (Resolved {| data_unused := () |})]
      = Some (w', effs)
    ∧ posts_sent effs = 2.
Proof.
  eexists _, _. computed_step E. split; [exact E |].
  exact (one_post_per_submit _ _ _ _ (after_reachable _ _) E).
Defined.

(** X9.  Over any sequence of events, refreshAlerts has been called exactly
    as many times as POSTs have resolved: never for a POST that failed, never
    for a fetch, never at the submit itself. *)
Theorem one_refresh_per_successful_post (w : World) (evs : list Event)
    (w' : World) (effs : list Effect) :
  reachable w → run w evs = Some (w', effs) →
  refresh_calls effs = posts_succeeded evs.
Proof.
  revert w effs. induction evs as [|ev evs IH]; intros w effs Hw Hrun;
    cbn [run] in Hrun.
  - by injection Hrun as _ <-.
  - destruct (step w ev) as [[w1 e1]|] eqn:E1; [| discriminate].
    destruct (run w1 evs) as [[w2 e2]|] eqn:E2; [| discriminate].
    injection Hrun as <- <-.
    rewrite refresh_calls_app, (step_refresh_calls _ _ _ _ Hw E1).
    rewrite (IH w1 e2); [| by eapply reachable_step | exact E2].
    unfold posts_succeeded.
    by destruct ev as [db|v|v|v|v|v|v| |i [r|e]|i [r|e]|i [r|e]].
Qed.

Lemma one_refresh_per_successful_post_witness :
  ∃ (w' : World) (effs : list Effect),
    run (after "sensors" filled_session)
      [Submit; Submit;
       PostSettled 0 (Rejected (AxiosError "Network Error"));
       PostSettled 0 (Resolved {| data_unused := () |})]
      = Some (w', effs)
    ∧ refresh_calls effs = 1.
Proof.
  eexists _, _. computed_step E. split; [exact E |].
  exact (one_refresh_per_successful_post _ _ _ _ (after_reachable _ _) E).
Defined.

(** X10.  handleSubmit has no guard against a submit while a POST is in
    flight: two submits in a row send two POSTs with the same body to the
    same address, and both stay in flight. *)
Theorem second_submit_posts_again (w : World) :
  ∃ (w2 : World) (effs : list Effect),
    run w [Submit; Submit] = Some (w2, effs)
    ∧ requests effs =
        [alert_request (selectedDatabase w) (formData (state w));
         alert_request (selectedDatabase w) (formData (state w))]
    ∧ inflight w2 =
        inflight w
          ++ [suspended (handleSubmit (selectedDatabase w) (formData (state w)));
              suspended (handleSubmit (selectedDatabase w) (formData (state w)))].
Proof.
  eexists _, _. cbn [run]. rewrite step_submit, step_submit.
  split; [reflexivity |].
  cbn [selectedDatabase state formData inflight]. split; [reflexivity |].
  by rewrite <- app_assoc.
Qed.

(** ** Editing the draft *)

Lemma run_two_steps (w : World) (ev1 ev2 : Event) (w2 : World)
    (effs : list Effect) :
  run w [ev1; ev2] = Some (w2, effs) →
  ∃ (w1 : World) (e1 e2 : list Effect),
    step w ev1 = Some (w1, e1) ∧ step w1 ev2 = Some (w2, e2)
    ∧ effs = e1 ++ e2.
Proof.
  cbn [run]. intros Hrun.
  destruct (step w ev1) as [[w1 e1]|] eqn:E1; [| discriminate].
  destruct (step w1 ev2) as [[w2' e2]|] eqn:E2; [| discriminate].
  injection Hrun as <- <-. exists w1, e1, e2. by rewrite app_nil_r.
Qed.

(** X11.  The change handlers write one field each and keep the others:
    two edits of different fields give the same state in either order, two
    edits of the same field leave what the later one wrote, and no edit
    sends a request. *)
Theorem edits_of_different_fields_commute (w : World) (ev1 ev2 : Event)
    (f1 f2 : Field) (wa wb : World) (ea eb : list Effect) :
  reachable w →
  edited_field ev1 = Some f1 → edited_field ev2 = Some f2 →
  run w [ev1; ev2] = Some (wa, ea) → run w [ev2; ev1] = Some (wb, eb) →
  (f1 ≠ f2 → state wa = state wb)
  ∧ (f1 = f2 → formData (state wa) = next_draft (formData (state w)) ev2)
  ∧ requests ea = [] ∧ requests eb = [].
Proof.
  intros Hw Hf1 Hf2 Ha Hb.
  apply run_two_steps in Ha as (w1 & e1 & e2 & A1 & A2 & ->).
  apply run_two_steps in Hb as (w1' & e1' & e2' & B1 & B2 & ->).
  assert (Hw1 : reachable w1) by exact (reachable_step _ _ _ _ Hw A1).
  assert (Hw1' : reachable w1') by exact (reachable_step _ _ _ _ Hw B1).
  rewrite !requests_app.
  rewrite (step_requests _ _ _ _ Hw A1), (step_requests _ _ _ _ Hw1 A2),
    (step_requests _ _ _ _ Hw B1), (step_requests _ _ _ _ Hw1' B2).
  rewrite (step_next_state _ _ _ _ Hw1 A2), (step_next_state _ _ _ _ Hw A1),
    (step_next_state _ _ _ _ Hw1' B2), (step_next_state _ _ _ _ Hw B1).
  destruct ev1 as [db|v|v|v|v|v|v| |i o|i o|i o]; try discriminate;
    destruct ev2 as [db'|v'|v'|v'|v'|v'|v'| |i' o'|i' o'|i' o']; try discriminate;
    injection Hf1 as <-; injection Hf2 as <-;
    (split; [| split; [| split; reflexivity]]);
    intros Hf; try done; reflexivity.
Qed.

Lemma edits_of_different_fields_commute_witness :
  ∃ (wa wb : World) (ea eb : list Effect),
    run (after "sensors" sensors_session)
      [AlertTitleChange "hot"; LowerBoundChange "10.5"] = Some (wa, ea)
    ∧ run (after "sensors" sensors_session)
        [LowerBoundChange "10.5"; AlertTitleChange "hot"] = Some (wb, eb)
    ∧ state wa = state wb.
Proof.
  eexists _, _, _, _. computed_step Ea. split; [exact Ea |].
  computed_step Eb. split; [exact Eb |].
  exact (proj1 (edits_of_different_fields_commute _
                  (AlertTitleChange "hot") (LowerBoundChange "10.5")
                  F_alert_title F_lower_bound _ _ _ _
                  (after_reachable _ _) eq_refl eq_refl Ea Eb)
           ltac:(discriminate)).
Defined.

(** X14.  A bound that has been typed in is a number from then on: a change
    of the input stores parseFloat of its text, also when the text is empty,
    so emptying the input does not bring back the empty string; and every
    later event keeps the bound a number, except a submission that succeeds,
    which resets the draft. *)
Theorem edited_bound_stays_a_number (w : World) (ev : Event) (w' : World)
    (effs : list Effect) :
  reachable w → step w ev = Some (w', effs) →
  (∀ text : string, ev = LowerBoundChange text →
     lower_bound (formData (state w')) = JsNum (parseFloat text))
  ∧ (∀ text : string, ev = HigherBoundChange text →
       higher_bound (formData (state w')) = JsNum (parseFloat text))
  ∧ (is_number (lower_bound (formData (state w))) = true →
       is_number (lower_bound (formData (state w'))) = true
       ∨ ∃ (i : nat) (response : PostResponse),
           ev = PostSettled i (Resolved response))
  ∧ (is_number (higher_bound (formData (state w))) = true →
       is_number (higher_bound (formData (state w'))) = true
       ∨ ∃ (i : nat) (response : PostResponse),
           ev = PostSettled i (Resolved response)).
Proof.
  intros Hw Hstep. rewrite (step_next_draft _ _ _ _ Hw Hstep).
  split; [by intros text -> |]. split; [by intros text -> |].
  split; intros Hn;
    destruct ev as [db|v|v|v|v|v|v| |i [r|e]|i [r|e]|i [r|e]];
    cbn [next_draft with_field_name with_alert_title with_alert_message
         with_lower_bound with_higher_bound lower_bound higher_bound is_number];
    eauto.
Qed.

Lemma edited_bound_stays_a_number_witness :
  ∃ (w' : World) (effs : list Effect),
    step (after "sensors" filled_session) (LowerBoundChange "") = Some (w', effs)
    ∧ lower_bound (formData (state w')) = JsNum (parseFloat "")
    ∧ is_number (higher_bound (formData (state w'))) = true.
Proof.
  eexists _, _. computed_step E. split; [exact E |].
  destruct (edited_bound_stays_a_number _ _ _ _ (after_reachable _ _) E)
    as (H1 & _ & _ & H4).
  split; [exact (H1 "" eq_refl) |].
  destruct (H4 ltac:(vm_compute; reflexivity)) as [H|(i & r & H)];
    [exact H | discriminate].
Defined.

(** ** A whole session *)

Ltac world_in H :=
  cbn [selectedDatabase state inflight delete list_delete next_state tables
       selectedTable columns formData error success initialState app] in H.

Ltac draft_fields :=
  cbn [with_field_name with_alert_title with_alert_message with_lower_bound
       with_higher_bound alert_title alert_message field_name lower_bound
       higher_bound emptyDraft].

Lemma step_edit (w : World) (ev : Event) (f : Field) :
  edited_field ev = Some f →
  step w ev =
    Some (mkWorld (selectedDatabase w) (next_state (state w) ev) (inflight w), []).
Proof.
  intros Hf.
  destruct ev as [db|v|v|v|v|v|v| |i o|i o|i o]; try discriminate;
    cbn [step]; rewrite dispatch_no_fetch by auto;
    unfold launch, onChange_field_name, onChange_alert_title,
      onChange_alert_message, onChange_lower_bound, onChange_higher_bound;
    cbn [run_sync perform fst snd park rejection app next_state];
    by rewrite app_nil_r.
Qed.

Lemma step_table_selected (w : World) (value : string) :
  value ≠ "" → value ≠ selectedTable (state w) →
  step w (TableChange value) =
    Some (mkWorld (selectedDatabase w)
            (mkState (tables (state w)) value (columns (state w))
               (formData (state w)) (error (state w)) (success (state w)))
            (inflight w ++ [suspended (fetchColumns (selectedDatabase w) value)]),
          [ConsoleLog "Fetching columns for table:" (LoggedString value);
           Sent (columns_request (selectedDatabase w) value)]).
Proof.
  intros Hv Hne. cbn [step].
  unfold dispatch, launch, onChange_table, run_effects.
  cbn [run_sync perform fst snd park rejection app state selectedDatabase
       selectedTable inflight].
  rewrite (bool_decide_eq_false_2 (selectedDatabase w ≠ selectedDatabase w))
    by (by intros ?).
  rewrite (bool_decide_eq_true_2 (selectedTable (state w) ≠ value))
    by (by intros ?).
  cbn [orb]. unfold effect_columns, fetchColumns, launch.
  rewrite (proj2 (truthy_true value) Hv).
  cbn [negb run_sync perform fst snd park rejection app state selectedDatabase
       inflight suspended].
  by rewrite !app_nil_r.
Qed.

Lemma step_post_enabled (w : World) (i : nat) (db : string) (draft : AlertDraft)
    (o : Outcome PostResponse) :
  inflight w !! i = Some (suspended (handleSubmit db draft)) →
  ∃ (w' : World) (effs : list Effect),
    step w (PostSettled i o) = Some (w', effs).
Proof.
  intros E. cbn [step]. rewrite E. cbn [suspended handleSubmit].
  destruct (dispatch _ _ _) as [w' effs]. by exists w', effs.
Qed.

(** X15.  The whole course of creating an alert.  Mounted on a non-empty
    database, with every request succeeding: the table list arrives, the user
    picks a table, its column list arrives, the user picks a field and types
    the title, the message and the two bounds, submits, and the POST
    resolves.  From the mount on, exactly three requests have been sent, in
    this order: the table fetch, the column fetch for the table picked, and
    the POST of the draft as typed, its bounds as parseFloat of the texts.
    refreshAlerts has been called once.  At the end the draft is empty again
    and the success message is set, while the table picked and its columns
    are still there, and nothing is in flight. *)
Theorem create_alert_session (db t f a m lo hi : string)
    (rt : TablesResponse) (rc : ColumnsResponse) (rp : PostResponse) :
  db ≠ "" → t ≠ "" →
  ∃ (w' : World) (effs : list Effect),
    run (mount db).1
      [TablesSettled 0 (Resolved rt); TableChange t;
       ColumnsSettled 0 (Resolved rc); FieldNameChange f;
       AlertTitleChange a; AlertMessageChange m;
       LowerBoundChange lo; HigherBoundChange hi;
       Submit; PostSettled 0 (Resolved rp)] = Some (w', effs)
    ∧ requests ((mount db).2 ++ effs) =
        [tables_request db; columns_request db t;
         alert_request db
           (mkDraft (JsString a) (JsString m) (JsString f)
              (JsNum (parseFloat lo)) (JsNum (parseFloat hi)))]
    ∧ refresh_calls effs = 1
    ∧ state w' =
        mkState (data_tables rt) t (data_columns rc) emptyDraft ""
          "Alert added successfully"
    ∧ inflight w' = [].
Proof.
  intros Hdb Ht.
  assert (Hd : truthy db = true) by (by apply truthy_true).
  assert (Hm : mount db =
            (mkWorld db initialState [suspended (fetchTables db)],
             [ConsoleLog "Fetching tables for database:" (LoggedString db);
              Sent (tables_request db)])).
  { unfold mount, effect_tables, effect_columns.
    cbn [selectedTable state initialState]. rewrite truthy_empty, Hd.
    reflexivity. }
  pose proof (reachable_mount db) as R0. rewrite Hm in *. cbn [fst snd] in *.
  (* the table list arrives *)
  destruct (step_tables_enabled
              (mkWorld db initialState [suspended (fetchTables db)])
              0 db (Resolved rt) eq_refl) as (w1 & e1 & S1).
  pose proof (step_tables_settled _ _ _ _ _ R0 S1) as [E1 E1'].
  world_in E1.
  subst w1 e1.
  pose proof (reachable_step _ _ _ _ R0 S1) as R1.
  (* the user picks the table *)
  pose proof (step_table_selected
                (mkWorld db (mkState (data_tables rt) "" [] emptyDraft "" "") [])
                t Ht (λ H, Ht H)) as S2.
  world_in S2.
  pose proof (reachable_step _ _ _ _ R1 S2) as R2.
  (* the column list arrives *)
  destruct (step_columns_enabled
              (mkWorld db (mkState (data_tables rt) t [] emptyDraft "" "")
                 [suspended (fetchColumns db t)])
              0 db t (Resolved rc) Ht eq_refl) as (w3 & e3 & S3).
  pose proof (step_columns_settled _ _ _ _ _ R2 S3) as [E3 E3'].
  world_in E3.
  subst w3 e3.
  pose proof (reachable_step _ _ _ _ R2 S3) as R3.
  (* the user fills in the form *)
  pose proof (step_edit
                (mkWorld db
                   (mkState (data_tables rt) t (data_columns rc)
                      (with_field_name (JsString "") emptyDraft) "" "") [])
                (FieldNameChange f) _ eq_refl) as S4.
  world_in S4.
  pose proof (reachable_step _ _ _ _ R3 S4) as R4.
  match type of R4 with reachable ?w =>
    pose proof (step_edit w (AlertTitleChange a) _ eq_refl) as S5 end.
  world_in S5.
  pose proof (reachable_step _ _ _ _ R4 S5) as R5.
  match type of R5 with reachable ?w =>
    pose proof (step_edit w (AlertMessageChange m) _ eq_refl) as S6 end.
  world_in S6.
  pose proof (reachable_step _ _ _ _ R5 S6) as R6.
  match type of R6 with reachable ?w =>
    pose proof (step_edit w (LowerBoundChange lo) _ eq_refl) as S7 end.
  world_in S7.
  pose proof (reachable_step _ _ _ _ R6 S7) as R7.
  match type of R7 with reachable ?w =>
    pose proof (step_edit w (HigherBoundChange hi) _ eq_refl) as S8 end.
  world_in S8.
  pose proof (reachable_step _ _ _ _ R7 S8) as R8.
  (* the submit, and its POST resolves *)
  match type of R8 with reachable ?w => pose proof (step_submit w) as S9 end.
  world_in S9.
  cbn [with_field_name with_alert_title with_alert_message with_lower_bound
       with_higher_bound alert_title alert_message field_name lower_bound
       higher_bound emptyDraft] in S9.
  pose proof (reachable_step _ _ _ _ R8 S9) as R9.
  match type of R9 with reachable ?w =>
    destruct (step_post_enabled w 0 _ _ (Resolved rp) eq_refl)
      as (w10 & e10 & S10) end.
  pose proof (step_post_settled _ _ _ _ _ R9 S10) as [E10 E10'].
  world_in E10.
  subst w10 e10.
  eexists _, _. cbn [run].
  rewrite S1, S2, S3, S4, S5.
  draft_fields.
  rewrite S6.
  draft_fields.
  rewrite S7.
  draft_fields.
  rewrite S8.
  draft_fields.
  rewrite S9, S10.
  split; [reflexivity |]. by repeat split.
Qed.

Lemma create_alert_session_witness :
  "sensors" ≠ "" ∧ "readings" ≠ ""
  ∧ ∃ (w' : World) (effs : list Effect),
      run (mount "sensors").1
        [TablesSettled 0 (Resolved {| data_tables := ["readings"; "events"] |});
         TableChange "readings";
         ColumnsSettled 0 (Resolved {| data_columns := ["temp"; "humidity"] |});
         FieldNameChange "temp";
         AlertTitleChange "hot"; AlertMessageChange "too hot";
         LowerBoundChange "10.5"; HigherBoundChange "40";
         Submit; PostSettled 0 (Resolved {| data_unused := () |})]
        = Some (w', effs)
      ∧ refresh_calls effs = 1
      ∧ inflight w' = [].
Proof.
  split; [discriminate |]. split; [discriminate |].
  destruct (create_alert_session "sensors" "readings" "temp" "hot" "too hot"
              "10.5" "40" {| data_tables := ["readings"; "events"] |}
              {| data_columns := ["temp"; "humidity"] |} {| data_unused := () |}
              ltac:(discriminate) ltac:(discriminate))
    as (w' & effs & H1 & _ & H3 & _ & H5).
  exists w', effs. exact (conj H1 (conj H3 H5)).
Defined.
